(** * Chicago neighbourhood air-quality map: a model of [air_quality_map_ow.py]

    The script fetches OpenWeather air-pollution payloads per neighbourhood,
    reduces each payload to one scalar, derives a colour domain from the
    scalars and builds one tooltip and fill colour per neighbourhood.

    Payloads are what [resp.json()] yields: Python values built from [None],
    booleans, numbers, strings, lists and dicts.  Numbers are rationals:
    Python's [float] rounding is not modelled, every other step of the
    arithmetic ([sum], [len], true division) is.  A dict is an association
    list whose first binding of a key is the live one.  Python exceptions are
    explicit: every operation that can raise returns in [exc]. *)

From Stdlib Require Import ZArith QArith Qminmax List String Ascii Bool Lia.
From Stdlib Require Import Permutation.
From Stdlib Require Import Reals Qreals Lra.
Import ListNotations.

Local Open Scope string_scope.
Set Warnings "-register-all".

(** ** Python values and exceptions *)

Inductive pyval : Type :=
| PNone
| PBool (b : bool)
| PNum (q : Q)
| PStr (s : string)
| PList (l : list pyval)
| PDict (d : list (string * pyval)).

Inductive exn : Type :=
| KeyError
| TypeError
| AttributeError
| IndexError
| ZeroDivisionError
| RequestException
| JSONDecodeError
| ConfigurationError.

Inductive exc (A : Type) : Type :=
| Ok (a : A)
| Raise (e : exn).

Arguments Ok {A} a.
Arguments Raise {A} e.

Definition bind {A B : Type} (m : exc A) (k : A -> exc B) : exc B :=
  match m with
  | Ok a => k a
  | Raise e => Raise e
  end.

Notation "x <- m ;; k" := (bind m (fun x => k))
  (at level 61, m at next level, right associativity).

(** [try: body / except Exception: handler]. *)
Definition try_except {A : Type} (body : exc A) (handler : exn -> exc A) : exc A :=
  match body with
  | Ok a => Ok a
  | Raise e => handler e
  end.

Definition raises {A : Type} (m : exc A) : bool :=
  match m with
  | Ok _ => false
  | Raise _ => true
  end.

(** ** Strings *)

Definition lower_ascii (c : ascii) : ascii :=
  let n := nat_of_ascii c in
  if (65 <=? n)%nat && (n <=? 90)%nat then ascii_of_nat (n + 32) else c.

Definition upper_ascii (c : ascii) : ascii :=
  let n := nat_of_ascii c in
  if (97 <=? n)%nat && (n <=? 122)%nat then ascii_of_nat (n - 32) else c.

(** [str.lower()] and [str.upper()] on ASCII text. *)
Fixpoint lower (s : string) : string :=
  match s with
  | EmptyString => EmptyString
  | String c s' => String (lower_ascii c) (lower s')
  end.

Fixpoint upper (s : string) : string :=
  match s with
  | EmptyString => EmptyString
  | String c s' => String (upper_ascii c) (upper s')
  end.

(** [needle in hay] for two strings: substring search. *)
Fixpoint contains_str (needle hay : string) : bool :=
  prefix needle hay ||
  match hay with
  | EmptyString => false
  | String _ hay' => contains_str needle hay'
  end.

Fixpoint chars_of (s : string) : list string :=
  match s with
  | EmptyString => []
  | String c s' => String c EmptyString :: chars_of s'
  end.

(** ** Built-in operations on Python values *)

Fixpoint lookup (k : string) (d : list (string * pyval)) : option pyval :=
  match d with
  | [] => None
  | (k', v) :: d' => if String.eqb k k' then Some v else lookup k d'
  end.

Definition dict_keys (d : list (string * pyval)) : list string :=
  nodup string_dec (map fst d).

(** [bool(v)], as used by [if not v] and [if v]. *)
Definition truthy (v : pyval) : bool :=
  match v with
  | PNone => false
  | PBool b => b
  | PNum q => negb (Qeq_bool q 0)
  | PStr s => negb (String.eqb s "")
  | PList l => match l with [] => false | _ => true end
  | PDict d => match d with [] => false | _ => true end
  end.

(** [v[k]] for a string key [k]. *)
Definition getitem (v : pyval) (k : string) : exc pyval :=
  match v with
  | PDict d => match lookup k d with
               | Some x => Ok x
               | None => Raise KeyError
               end
  | _ => Raise TypeError
  end.

(** [v[i]] for an integer index [i >= 0]. *)
Definition getitem_idx (v : pyval) (i : nat) : exc pyval :=
  match v with
  | PList l => match nth_error l i with
               | Some x => Ok x
               | None => Raise IndexError
               end
  | PStr s => match nth_error (chars_of s) i with
              | Some c => Ok (PStr c)
              | None => Raise IndexError
              end
  | PDict _ => Raise KeyError
  | _ => Raise TypeError
  end.

(** [v.get(k, default)]: only dicts have the method. *)
Definition get (v : pyval) (k : string) (default : pyval) : exc pyval :=
  match v with
  | PDict d => match lookup k d with
               | Some x => Ok x
               | None => Ok default
               end
  | _ => Raise AttributeError
  end.

Definition is_str (k : string) (v : pyval) : bool :=
  match v with
  | PStr s => String.eqb k s
  | _ => false
  end.

(** [k in v] for a string [k]. *)
Definition contains (k : string) (v : pyval) : exc bool :=
  match v with
  | PDict d => Ok (match lookup k d with Some _ => true | None => false end)
  | PList l => Ok (existsb (is_str k) l)
  | PStr s => Ok (contains_str k s)
  | _ => Raise TypeError
  end.

(** [len(v)]. *)
Definition len (v : pyval) : exc nat :=
  match v with
  | PDict d => Ok (List.length (dict_keys d))
  | PList l => Ok (List.length l)
  | PStr s => Ok (String.length s)
  | _ => Raise TypeError
  end.

(** [for entry in v]: the sequence of values the loop visits. *)
Definition iter (v : pyval) : exc (list pyval) :=
  match v with
  | PList l => Ok l
  | PDict d => Ok (map PStr (dict_keys d))
  | PStr s => Ok (map PStr (chars_of s))
  | _ => Raise TypeError
  end.

Definition is_none (v : pyval) : bool :=
  match v with
  | PNone => true
  | _ => false
  end.

(** [sum(vals)]: left to right from 0; [bool] is a subclass of [int]. *)
Fixpoint sum_from (acc : Q) (vals : list pyval) : exc Q :=
  match vals with
  | [] => Ok acc
  | PNum q :: vals' => sum_from (acc + q)%Q vals'
  | PBool b :: vals' => sum_from (acc + (if b then 1 else 0))%Q vals'
  | _ :: _ => Raise TypeError
  end.

Definition sum (vals : list pyval) : exc Q := sum_from 0%Q vals.

(** [a / n] for a count [n]. *)
Definition truediv (a : Q) (n : nat) : exc Q :=
  match n with
  | O => Raise ZeroDivisionError
  | S _ => Ok (a / inject_Z (Z.of_nat n))%Q
  end.

(** [vals[:n]]. *)
Definition slice_to (n : nat) (v : list pyval) : list pyval := firstn n v.

(** ** Configuration chosen in the UI *)

Inductive mode : Type := Current | Forecast | Historic.

Definition mode_name (m : mode) : string :=
  match m with
  | Current => "Current"
  | Forecast => "Forecast"
  | Historic => "Historic"
  end.

Fixpoint lookup_str (k : string) (d : list (string * string)) : option string :=
  match d with
  | [] => None
  | (k', v) :: d' => if String.eqb k k' then Some v else lookup_str k d'
  end.

Definition mapping : list (string * string) :=
  [("pm25", "pm2_5"); ("pm10", "pm10"); ("o3", "o3");
   ("no2", "no2"); ("so2", "so2"); ("co", "co")].

Definition pollutant_key_map (pollutant : string) : string :=
  match lookup_str (lower pollutant) mapping with
  | Some k => k
  | None => lower pollutant
  end.

(** ** Aggregation: [extract_color_val] *)

(** [[entry["components"].get(p_key) for entry in entries
      if p_key in entry["components"]]] *)
Fixpoint collect_vals (p_key : string) (entries : list pyval) : exc (list pyval) :=
  match entries with
  | [] => Ok []
  | entry :: rest =>
      c <- getitem entry "components" ;;
      b <- contains p_key c ;;
      if b then
        c' <- getitem entry "components" ;;
        v <- get c' p_key PNone ;;
        vs <- collect_vals p_key rest ;;
        Ok (v :: vs)
      else collect_vals p_key rest
  end.

(** [[v for v in vals if v is not None]] *)
Definition drop_none (vals : list pyval) : list pyval :=
  filter (fun v => negb (is_none v)) vals.

(** The two comprehensions followed by [sum(vals)/len(vals) if vals];
    [None] stands for reaching the end without a [return]. *)
Definition mean_of_key (p_key : string) (entries : list pyval) : exc (option Q) :=
  vals <- collect_vals p_key entries ;;
  let vals := drop_none vals in
  match vals with
  | [] => Ok None
  | _ :: _ =>
      s <- sum vals ;;
      q <- truediv s (List.length vals) ;;
      Ok (Some q)
  end.

Definition opt_num (o : option Q) : pyval :=
  match o with
  | Some q => PNum q
  | None => PNone
  end.

Definition extract_color_val (display_mode : mode) (color_by : string)
    (aq_data : pyval) : exc pyval :=
  if negb (truthy aq_data) then Ok PNone
  else
    let p_key := pollutant_key_map color_by in
    try_except
      (match display_mode with
       | Current =>
           c <- getitem aq_data "components" ;;
           get c p_key PNone
       | Forecast =>
           entries <- iter aq_data ;;
           o <- mean_of_key p_key entries ;;
           Ok (opt_num o)
       | Historic =>
           entries <- iter aq_data ;;
           o <- mean_of_key p_key entries ;;
           Ok (opt_num o)
       end)
      (fun _ => Ok PNone).

(** ** The data client: [fetch_current_aqi], [fetch_forecast_aqi],
       [fetch_historic_aqi] *)

Inductive endpoint : Type :=
| AirPollution
| AirPollutionForecast
| AirPollutionHistory (start_unix end_unix : Z).

Record request : Type := mkRequest {
  req_endpoint : endpoint;
  req_lat : Q;
  req_lon : Q
}.

(** What [requests.get(url)] does: it raises (no connection, timeout, ...)
    or hands back a response with a status code and a body; the body is
    [None] when it is not JSON, in which case [resp.json()] raises. *)
Inductive http_result : Type :=
| ConnectionFailed
| Response (status_code : Z) (body : option pyval).

Definition json (body : option pyval) : exc pyval :=
  match body with
  | Some data => Ok data
  | None => Raise JSONDecodeError
  end.

(** [if "list" in data and len(data["list"]) > 0] *)
Definition has_results (data : pyval) : exc bool :=
  b <- contains "list" data ;;
  if b then
    l <- getitem data "list" ;;
    n <- len l ;;
    Ok (0 <? n)%nat
  else Ok false.

Section Client.

(** The network, as the script sees it.  The [st.cache_data] decorator only
    memoises returned values and is left out. *)
Variable requests_get : request -> http_result.

Definition fetch_current_aqi (lat lon : Q) : exc pyval :=
  match requests_get (mkRequest AirPollution lat lon) with
  | ConnectionFailed => Raise RequestException
  | Response status_code body =>
      if (status_code =? 200)%Z then
        data <- json body ;;
        b <- has_results data ;;
        if b then
          l <- getitem data "list" ;;
          getitem_idx l 0
        else Ok PNone
      else Ok PNone
  end.

Definition fetch_forecast_aqi (lat lon : Q) : exc pyval :=
  match requests_get (mkRequest AirPollutionForecast lat lon) with
  | ConnectionFailed => Raise RequestException
  | Response status_code body =>
      if (status_code =? 200)%Z then
        data <- json body ;;
        b <- has_results data ;;
        if b then getitem data "list" else Ok PNone
      else Ok PNone
  end.

Definition fetch_historic_aqi (lat lon : Q) (start_unix end_unix : Z) : exc pyval :=
  match requests_get (mkRequest (AirPollutionHistory start_unix end_unix) lat lon) with
  | ConnectionFailed => Raise RequestException
  | Response status_code body =>
      if (status_code =? 200)%Z then
        data <- json body ;;
        b <- has_results data ;;
        if b then getitem data "list" else Ok PNone
      else Ok PNone
  end.

(** The branch of the fetch loop taken for one neighbourhood. *)
Definition fetch (display_mode : mode) (start_unix end_unix : Z)
    (lat lon : Q) : exc pyval :=
  match display_mode with
  | Current => fetch_current_aqi lat lon
  | Forecast => fetch_forecast_aqi lat lon
  | Historic => fetch_historic_aqi lat lon start_unix end_unix
  end.

End Client.

(** ** The colour domain: [valid_vals], [min_val], [max_val] *)

(** A value of the [color_val] column as a number; a column that holds
    anything else cannot be ordered or coloured. *)
Definition num_of (v : pyval) : exc Q :=
  match v with
  | PNum q => Ok q
  | PBool b => Ok (if b then 1 else 0)%Q
  | _ => Raise TypeError
  end.

Fixpoint nums_of (vals : list pyval) : exc (list Q) :=
  match vals with
  | [] => Ok []
  | v :: vals' =>
      q <- num_of v ;;
      qs <- nums_of vals' ;;
      Ok (q :: qs)
  end.

(** [Series.dropna()] *)
Definition dropna (col : list pyval) : list pyval :=
  filter (fun v => negb (is_none v)) col.

Definition qmin (a b : Q) : Q := if Qle_bool a b then a else b.
Definition qmax (a b : Q) : Q := if Qle_bool a b then b else a.

Definition series_min (x : Q) (xs : list Q) : Q := fold_left qmin xs x.
Definition series_max (x : Q) (xs : list Q) : Q := fold_left qmax xs x.

Definition color_domain (color_val : list pyval) : exc (Q * Q) :=
  valid_vals <- nums_of (dropna color_val) ;;
  match valid_vals with
  | x :: xs => Ok (series_min x xs, series_max x xs)
  | [] => Ok (0, 1)%Q
  end.

(** ** The render loop: fill colour and tooltip per neighbourhood *)

(** [centroid.x] is the longitude, [centroid.y] the latitude, in degrees. *)
Record Point : Type := mkPoint {
  px : Q;
  py : Q
}.

Record neighborhood : Type := mkNeighborhood {
  name : string;
  centroid : Point;
  geometry : list Point
}.

(** A row of the data frame once the [aq_data] and [color_val] columns are
    filled in; each column holds the Python values assigned to it. *)
Record row : Type := mkRow {
  row_region : neighborhood;
  aq_data : pyval;
  color_val : pyval
}.

Inductive color : Type :=
| Named (s : string)
| RGBA (r g b a : Q).

(** What one iteration adds to the map: a [GeoJson] layer and a [Marker]. *)
Record layer : Type := mkLayer {
  layer_geometry : list Point;
  fillColor : color;
  tooltip : string;
  marker_location : Q * Q;
  marker_html : string
}.

(** [get_nearest_station_coord] *)
Definition get_nearest_station_coord (point : Point) : Q * Q :=
  (py point, px point).

Section Render.

(** [f"{v}"] for a value that is not a string: Python's number and
    container formatting, left abstract. *)
Variable repr : pyval -> string.

(** The [LinearColormap] object of branca, called on a number, for a given
    [vmin] and [vmax]. *)
Variable LinearColormap : Q -> Q -> Q -> exc color.

Variable display_mode : mode.
Variable selected_pollutants : list string.

Definition format (v : pyval) : string :=
  match v with
  | PStr s => s
  | _ => repr v
  end.

(** [colormap(color_val) if color_val is not None else "gray"] *)
Definition fill_color (min_val max_val : Q) (color_val : pyval) : exc color :=
  if negb (is_none color_val) then
    x <- num_of color_val ;;
    LinearColormap min_val max_val x
  else Ok (Named "gray").

(** The loop over [selected_pollutants] in Current mode. *)
Fixpoint current_lines (ps : list string) (aq_data : pyval)
    (tooltip_html : string) : exc string :=
  match ps with
  | [] => Ok tooltip_html
  | p :: ps' =>
      let p_key := pollutant_key_map p in
      c <- getitem aq_data "components" ;;
      val <- get c p_key (PStr "N/A") ;;
      current_lines ps' aq_data
        (tooltip_html ++ (upper p ++ ": " ++ format val ++ "<br>"))
  end.

Definition avg_text (o : option Q) : string :=
  match o with
  | Some q => repr (PNum q)
  | None => "N/A"
  end.

(** The loop over [selected_pollutants] in Forecast and Historic mode. *)
Fixpoint avg_lines (ps : list string) (entries : list pyval)
    (tooltip_html : string) : exc string :=
  match ps with
  | [] => Ok tooltip_html
  | p :: ps' =>
      let p_key := pollutant_key_map p in
      avg_val <- mean_of_key p_key entries ;;
      avg_lines ps' entries
        (tooltip_html ++
          (upper p ++ " (" ++ mode_name display_mode ++ " avg): "
             ++ avg_text avg_val ++ "<br>"))
  end.

Definition tooltip_html (name : string) (aq_data : pyval) : exc string :=
  let t := "<b>" ++ name ++ "</b><br>" in
  if truthy aq_data then
    match display_mode with
    | Current =>
        main <- getitem aq_data "main" ;;
        aqi <- getitem main "aqi" ;;
        current_lines selected_pollutants aq_data
          (t ++ ("AQI (Overall): " ++ format aqi ++ "<br>"))
    | Forecast =>
        (* isinstance(aq_data, list), then entries = aq_data[:24] *)
        match aq_data with
        | PList l => avg_lines selected_pollutants (slice_to 24 l) t
        | _ => Ok (t ++ "No detailed data available.<br>")
        end
    | Historic =>
        (* isinstance(aq_data, list), then entries = aq_data *)
        match aq_data with
        | PList l => avg_lines selected_pollutants l t
        | _ => Ok (t ++ "No detailed data available.<br>")
        end
    end
  else Ok (t ++ "No data available.<br>").

(** One iteration of [for _, row in neighborhoods.iterrows()]. *)
Definition render_row (min_val max_val : Q) (r : row) : exc layer :=
  let nb := row_region r in
  fc <- fill_color min_val max_val (color_val r) ;;
  tt <- tooltip_html (name nb) (aq_data r) ;;
  Ok (mkLayer (geometry nb) fc tt
        (py (centroid nb), px (centroid nb))
        ("<div style='font-size:8pt; color:black'>" ++ name nb ++ "</div>")).

Fixpoint render_loop (min_val max_val : Q) (rows : list row) : exc (list layer) :=
  match rows with
  | [] => Ok []
  | r :: rows' =>
      l <- render_row min_val max_val r ;;
      ls <- render_loop min_val max_val rows' ;;
      Ok (l :: ls)
  end.

End Render.

(** ** The script, top to bottom *)

Section Script.

Variable requests_get : request -> http_result.
Variable repr : pyval -> string.
Variable LinearColormap : Q -> Q -> Q -> exc color.

(** [BallTree(np.radians(coords), metric='haversine')]: scikit-learn builds
    the index or raises; the script never queries it afterwards. *)
Variable Tree : Type.
Variable BallTree : list (Q * Q) -> exc Tree.

Variable display_mode : mode.
Variable selected_pollutants : list string.
Variable color_by : string.
Variables start_unix end_unix : Z.

(** [for idx, row in neighborhoods.iterrows(): ... aqi_data_list.append(data)] *)
Fixpoint fetch_loop (neighborhoods : list neighborhood) : exc (list pyval) :=
  match neighborhoods with
  | [] => Ok []
  | nb :: rest =>
      let lat := py (centroid nb) in
      let lon := px (centroid nb) in
      data <- fetch requests_get display_mode start_unix end_unix lat lon ;;
      aqi_data_list <- fetch_loop rest ;;
      Ok (data :: aqi_data_list)
  end.

(** [neighborhoods["aq_data"].apply(extract_color_val)] *)
Fixpoint apply_extract (col : list pyval) : exc (list pyval) :=
  match col with
  | [] => Ok []
  | v :: col' =>
      c <- extract_color_val display_mode color_by v ;;
      cs <- apply_extract col' ;;
      Ok (c :: cs)
  end.

Definition make_rows (neighborhoods : list neighborhood)
    (aq : list pyval) (cv : list pyval) : list row :=
  map (fun t => mkRow (fst (fst t)) (snd (fst t)) (snd t))
      (combine (combine neighborhoods aq) cv).

Definition script (neighborhoods : list neighborhood) : exc (list layer) :=
  let coords := map (fun nb => (py (centroid nb), px (centroid nb))) neighborhoods in
  tree <- BallTree coords ;;
  aqi_data_list <- fetch_loop neighborhoods ;;
  color_vals <- apply_extract aqi_data_list ;;
  dom <- color_domain color_vals ;;
  render_loop repr LinearColormap display_mode selected_pollutants
    (fst dom) (snd dom) (make_rows neighborhoods aqi_data_list color_vals).

End Script.

(** ** Well-formed payloads

    The shape OpenWeather documents for one entry of ["list"]: a [components]
    dict from pollutant key to concentration, a timestamp, and the overall
    index under [main]. *)

Record PollutantSample : Type := mkSample {
  timestampUnix : Z;
  components : list (string * Q);
  overallIndex : option Z
}.

Inductive QueryResult : Type :=
| QCurrent (sample : PollutantSample)
| QForecast (samples : list PollutantSample)
| QHistoric (samples : list PollutantSample)
| QAbsent.

Definition encode_components (c : list (string * Q)) : pyval :=
  PDict (map (fun kv => (fst kv, PNum (snd kv))) c).

Definition encode_sample (s : PollutantSample) : pyval :=
  PDict
    ((match overallIndex s with
      | Some i => [("main", PDict [("aqi", PNum (inject_Z i))])]
      | None => []
      end)
     ++ [("components", encode_components (components s));
         ("dt", PNum (inject_Z (timestampUnix s)))])%list.

Definition encode_samples (l : list PollutantSample) : pyval :=
  PList (map encode_sample l).

Definition encode_result (r : QueryResult) : pyval :=
  match r with
  | QCurrent s => encode_sample s
  | QForecast l => encode_samples l
  | QHistoric l => encode_samples l
  | QAbsent => PNone
  end.


(** The concentration a sample reports for a key, if any. *)
Fixpoint component (k : string) (c : list (string * Q)) : option Q :=
  match c with
  | [] => None
  | (k', v) :: c' => if String.eqb k k' then Some v else component k c'
  end.

(** The values of a key over the samples that contain it, in order. *)
Fixpoint present_values (k : string) (samples : list PollutantSample) : list Q :=
  match samples with
  | [] => []
  | s :: rest =>
      match component k (components s) with
      | Some v => v :: present_values k rest
      | None => present_values k rest
      end
  end.

Definition Qsum (l : list Q) : Q := fold_right Qplus 0%Q l.

(** The arithmetic mean of a list of values; absent for the empty list. *)
Definition arithmetic_mean (l : list Q) : option Q :=
  match l with
  | [] => None
  | _ :: _ => Some (Qsum l / inject_Z (Z.of_nat (List.length l)))%Q
  end.

(** [r] is the scalar [o]: [None] when absent, else a number equal to it. *)
Definition returns_scalar (r : exc pyval) (o : option Q) : Prop :=
  match o with
  | None => r = Ok PNone
  | Some m => exists q, r = Ok (PNum q) /\ (q == m)%Q
  end.

(** Hourly samples whose [pm2_5] readings are [lo], [lo+1], ... *)
Fixpoint hourly_pm25 (n : nat) (lo : Z) : list PollutantSample :=
  match n with
  | O => []
  | S n' => mkSample lo [("pm2_5", inject_Z lo)] None :: hourly_pm25 n' (lo + 1)
  end.

(** ** The colour scale *)

(** The anchors ["green"], ["yellow"], ["red"] as CSS colours. *)
Definition first_anchor : color := RGBA 0 (128 # 255) 0 1.
Definition mid_anchor : color := RGBA 1 1 0 1.
Definition last_anchor : color := RGBA 1 0 0 1.

Definition qdiv (a b : Q) : exc Q :=
  if Qeq_bool b 0 then Raise ZeroDivisionError else Ok (a / b)%Q.

Definition mix (t a b : Q) : Q := ((1 - t) * a + t * b)%Q.

Definition interpolate (c1 c2 : color) (t : Q) : color :=
  match c1, c2 with
  | RGBA r1 g1 b1 a1, RGBA r2 g2 b2 a2 =>
      RGBA (mix t r1 r2) (mix t g1 g2) (mix t b1 b2) (mix t a1 a2)
  | _, _ => c1
  end.

(** Modelled from the spec: the mapping function of the colour scale.  The
    script delegates it to branca's [LinearColormap], which is not among the
    repository's sources.  Section 4.4: piecewise-linear interpolation over
    three anchors across the domain, clamped outside it, and the mid anchor
    when the domain is degenerate. *)
Definition colormap (vmin vmax x : Q) : exc color :=
  if Qeq_bool vmin vmax then Ok mid_anchor
  else if Qle_bool x vmin then Ok first_anchor
  else if Qle_bool vmax x then Ok last_anchor
  else
    let mid := ((vmin + vmax) / 2)%Q in
    if Qle_bool x mid then
      t <- qdiv (x - vmin) (mid - vmin) ;;
      Ok (interpolate first_anchor mid_anchor t)
    else
      t <- qdiv (x - mid) (vmax - mid) ;;
      Ok (interpolate mid_anchor last_anchor t).

(** ** The spatial index *)

(** [np.radians] *)
Definition radians (deg : Q) : R := (Q2R deg * PI / 180)%R.

(** Modelled from the spec: the haversine metric the script names when it
    builds the index; its computation is inside scikit-learn.  The haversine
    of the central angle between two (latitude, longitude) pairs given in
    degrees, and the angle itself, over the reals. *)
Definition hav (a b : Q * Q) : R :=
  let lat1 := radians (fst a) in
  let lon1 := radians (snd a) in
  let lat2 := radians (fst b) in
  let lon2 := radians (snd b) in
  (Rsqr (sin ((lat2 - lat1) / 2))
   + cos lat1 * cos lat2 * Rsqr (sin ((lon2 - lon1) / 2)))%R.

Definition haversine (a b : Q * Q) : R := (2 * asin (sqrt (hav a b)))%R.

Definition queryPoint (nb : neighborhood) : Q * Q :=
  get_nearest_station_coord (centroid nb).

(** Modelled from the spec: construction of the spatial index.  The script
    hands the centroids to scikit-learn's [BallTree], which is not among the
    repository's sources.  Section 4.1: an empty region set fails with a
    [ConfigurationError]. *)
Definition build_index {A : Type} (points : list A) : exc (list A) :=
  match points with
  | [] => Raise ConfigurationError
  | _ :: _ => Ok points
  end.

(** The scan behind [nearestRegion]: the first region of least distance. *)
Fixpoint nearest_from (coord : Q * Q) (best : neighborhood)
    (rest : list neighborhood) : neighborhood :=
  match rest with
  | [] => best
  | r :: rest' =>
      if Rlt_dec (haversine coord (queryPoint r)) (haversine coord (queryPoint best))
      then nearest_from coord r rest'
      else nearest_from coord best rest'
  end.

(** Modelled from the spec: the lookup [nearestRegion(coord) -> regionId] of
    section 4.1, the region whose query point is closest in haversine
    distance; the script builds the index but never queries it.  A region's
    id is its name. *)
Definition nearestRegion (regions : list neighborhood) (coord : Q * Q) : exc string :=
  index <- build_index regions ;;
  match index with
  | [] => Raise ConfigurationError
  | r :: rest => Ok (name (nearest_from coord r rest))
  end.

(** ** Concrete inputs used below *)

Definition sample_pm25 (v : Q) : PollutantSample :=
  mkSample 0 [("pm2_5", v)] (Some 1%Z).

Definition sample_no2 (v : Q) : PollutantSample :=
  mkSample 0 [("no2", v)] (Some 1%Z).

Definition thirty_hours : pyval := encode_samples (hourly_pm25 30 1).

Definition text_payload : pyval :=
  PDict [("components", PDict [("pm2_5", PStr "high")])].

(** Two regions with distinct ids and one shared query point. *)
Definition twin_a : neighborhood := mkNeighborhood "A" (mkPoint 0 0) [].
Definition twin_b : neighborhood := mkNeighborhood "B" (mkPoint 0 0) [].

(** Two regions half a turn of longitude apart on the equator. *)
Definition west_nb : neighborhood := mkNeighborhood "West" (mkPoint 0 0) [].
Definition east_nb : neighborhood := mkNeighborhood "East" (mkPoint 180 0) [].

Definition plain_repr (v : pyval) : string := "?".

Definition offline (r : request) : http_result := ConnectionFailed.

Definition not_found (r : request) : http_result := Response 404 None.

Definition no_results (r : request) : http_result :=
  Response 200 (Some (PDict [("list", PList [])])).

(** The request a fetch sends for a mode. *)
Definition request_for (display_mode : mode) (start_unix end_unix : Z)
    (lat lon : Q) : request :=
  match display_mode with
  | Current => mkRequest AirPollution lat lon
  | Forecast => mkRequest AirPollutionForecast lat lon
  | Historic => mkRequest (AirPollutionHistory start_unix end_unix) lat lon
  end.

(** The values of a column that are present. *)
Fixpoint present (vals : list (option Q)) : list Q :=
  match vals with
  | [] => []
  | Some q :: vals' => q :: present vals'
  | None :: vals' => present vals'
  end.

(** The entry [Series.apply(extract_color_val)] stores for a payload;
    [extract_color_val] returns on every payload. *)
Definition color_val_of (display_mode : mode) (color_by : string)
    (aq_data : pyval) : pyval :=
  match extract_color_val display_mode color_by aq_data with
  | Ok v => v
  | Raise _ => PNone
  end.

(** The row of the data frame for a region and its query result. *)
Definition frame_row (display_mode : mode) (color_by : string)
    (nq : neighborhood * QueryResult) : row :=
  let aq := encode_result (snd nq) in
  mkRow (fst nq) aq (color_val_of display_mode color_by aq).





(** Three regions in Current mode: two with a pm2_5 reading, one whose fetch
    failed. *)
Definition three_regions : list (neighborhood * QueryResult) :=
  [(mkNeighborhood "A" (mkPoint 0 0) [], QCurrent (sample_pm25 10));
   (mkNeighborhood "B" (mkPoint 1 0) [], QCurrent (sample_pm25 30));
   (mkNeighborhood "C" (mkPoint 2 0) [], QAbsent)].

(** ** Further concrete inputs and notions *)

(** A server that answers every request with the given entries. *)
Definition served (entries : list pyval) (r : request) : http_result :=
  Response 200 (Some (PDict [("list", PList entries)])).

(** The exceptions reading a payload can raise. *)
Definition data_error (e : exn) : bool :=
  match e with
  | KeyError | TypeError | AttributeError => true
  | _ => false
  end.



(** The lines of a tooltip, one after the other. *)
Definition lines (l : list string) : string := fold_right String.append "" l.

(** The mean the script computes for a key over well-formed samples. *)
Definition shown_mean (k : string) (samples : list PollutantSample) : option Q :=
  match mean_of_key k (map encode_sample samples) with
  | Ok o => o
  | Raise _ => None
  end.

(** The samples a mode's tooltip averages: [aq_data[:24]] or [aq_data]. *)
Definition window (display_mode : mode) (samples : list PollutantSample)
  : list PollutantSample :=
  match display_mode with
  | Forecast => firstn 24 samples
  | _ => samples
  end.

(** The tooltip line of a pollutant in Current mode. *)
Definition current_line (repr : pyval -> string) (s : PollutantSample)
    (p : string) : string :=
  upper p ++ ": "
    ++ match component (pollutant_key_map p) (components s) with
       | Some v => repr (PNum v)
       | None => "N/A"
       end
    ++ "<br>".

(** The tooltip line of a pollutant in Forecast and Historic mode. *)
Definition avg_line (repr : pyval -> string) (display_mode : mode)
    (samples : list PollutantSample) (p : string) : string :=
  upper p ++ " (" ++ mode_name display_mode ++ " avg): "
    ++ avg_text repr (shown_mean (pollutant_key_map p) (window display_mode samples))
    ++ "<br>".



(** ** Loading the neighbourhoods: the name column

    [load_neighborhoods] reads the shapefile with geopandas and rewrites the
    name of every row with [.str.strip().str.title()].  The two string
    methods are modelled on ASCII text. *)

(** [c.isspace()] *)
Definition is_space (c : ascii) : bool :=
  let n := nat_of_ascii c in
  ((9 <=? n)%nat && (n <=? 13)%nat) || ((28 <=? n)%nat && (n <=? 32)%nat).

Definition is_lower (c : ascii) : bool :=
  let n := nat_of_ascii c in (97 <=? n)%nat && (n <=? 122)%nat.

Definition is_upper (c : ascii) : bool :=
  let n := nat_of_ascii c in (65 <=? n)%nat && (n <=? 90)%nat.

(** [str.lstrip()] *)
Fixpoint lstrip (s : string) : string :=
  match s with
  | EmptyString => EmptyString
  | String c s' => if is_space c then lstrip s' else s
  end.

(** [str.rstrip()] *)
Fixpoint rstrip (s : string) : string :=
  match s with
  | EmptyString => EmptyString
  | String c s' =>
      match rstrip s' with
      | EmptyString => if is_space c then EmptyString else String c EmptyString
      | r => String c r
      end
  end.

(** [str.strip()] *)
Definition strip (s : string) : string := rstrip (lstrip s).

(** One step of [str.title()]: the character written and whether the
    character read was cased. *)
Definition title_char (previous_is_cased : bool) (c : ascii) : ascii * bool :=
  if is_lower c then
    (if previous_is_cased then c else upper_ascii c, true)
  else if is_upper c then
    (if previous_is_cased then lower_ascii c else c, true)
  else (c, false).

Fixpoint title_from (previous_is_cased : bool) (s : string) : string :=
  match s with
  | EmptyString => EmptyString
  | String c s' =>
      String (fst (title_char previous_is_cased c))
             (title_from (snd (title_char previous_is_cased c)) s')
  end.

(** [str.title()] *)
Definition title (s : string) : string := title_from false s.

(** [gdf["neighborhood"].str.strip().str.title()], for one name. *)
Definition normalise_name (s : string) : string := title (strip s).

(** * Properties *)

(** ** Reading well-formed payloads *)

Lemma lookup_encode (k : string) (c : list (string * Q)) :
  lookup k (map (fun kv => (fst kv, PNum (snd kv))) c)
  = option_map PNum (component k c).
Proof.
  induction c as [|[k' v] c IH]; simpl; [reflexivity|].
  destruct (String.eqb k k'); [reflexivity|exact IH].
Qed.

Lemma getitem_components (s : PollutantSample) :
  getitem (encode_sample s) "components" = Ok (encode_components (components s)).
Proof.
  unfold encode_sample. destruct (overallIndex s); reflexivity.
Qed.

Lemma getitem_main (s : PollutantSample) (i : Z) :
  overallIndex s = Some i ->
  getitem (encode_sample s) "main" = Ok (PDict [("aqi", PNum (inject_Z i))]).
Proof.
  intros H. unfold encode_sample. rewrite H. reflexivity.
Qed.

Lemma truthy_encode_sample (s : PollutantSample) :
  truthy (encode_sample s) = true.
Proof.
  unfold encode_sample. destruct (overallIndex s); reflexivity.
Qed.

Lemma collect_vals_encode (k : string) (l : list PollutantSample) :
  collect_vals k (map encode_sample l) = Ok (map PNum (present_values k l)).
Proof.
  induction l as [|s l IH]; [reflexivity|].
  cbn [map collect_vals]. rewrite getitem_components.
  unfold encode_components. cbn [bind contains get].
  rewrite lookup_encode. cbn [present_values].
  destruct (component k (components s)) as [v|]; cbn [option_map bind].
  - rewrite IH. reflexivity.
  - exact IH.
Qed.

Lemma drop_none_nums (l : list Q) : drop_none (map PNum l) = map PNum l.
Proof.
  unfold drop_none.
  induction l as [|q l IH]; simpl; [reflexivity|].
  rewrite IH. reflexivity.
Qed.

Lemma sum_from_nums (l : list Q) (acc : Q) :
  exists t, sum_from acc (map PNum l) = Ok t /\ (t == acc + Qsum l)%Q.
Proof.
  revert acc. induction l as [|q l IH]; intros acc; simpl.
  - exists acc. split; [reflexivity|ring].
  - destruct (IH (acc + q)%Q) as [t [Ht Hq]].
    exists t. split; [exact Ht|]. rewrite Hq. ring.
Qed.

(** The two comprehensions and the division compute the arithmetic mean of
    the values present under the key. *)
Lemma mean_of_key_encode (k : string) (l : list PollutantSample) :
  match arithmetic_mean (present_values k l) with
  | None => mean_of_key k (map encode_sample l) = Ok None
  | Some m => exists q, mean_of_key k (map encode_sample l) = Ok (Some q) /\ (q == m)%Q
  end.
Proof.
  unfold mean_of_key. rewrite collect_vals_encode. simpl.
  rewrite drop_none_nums.
  destruct (present_values k l) as [|v vs]; simpl; [reflexivity|].
  destruct (sum_from_nums vs (0 + v)%Q) as [t [Ht Hq]].
  unfold sum. simpl. rewrite Ht. simpl.
  rewrite length_map.
  eexists. split; [reflexivity|].
  rewrite Hq. simpl. 
  apply Qmult_comp; [ring|reflexivity].
Qed.

Lemma present_values_nil (k : string) (l : list PollutantSample) :
  present_values k l = [] <->
  Forall (fun s => component k (components s) = None) l.
Proof.
  induction l as [|s l IH]; simpl.
  - split; [constructor|reflexivity].
  - destruct (component k (components s)) as [v|] eqn:E.
    + split; [discriminate|]. intros H. inversion H; subst. congruence.
    + rewrite IH. split.
      * intros H. constructor; assumption.
      * intros H. inversion H; assumption.
Qed.

Lemma aggregate_list (m : mode) (color_by : string) (l : list PollutantSample) :
  m <> Current ->
  returns_scalar (extract_color_val m color_by (encode_samples l))
    (arithmetic_mean (present_values (pollutant_key_map color_by) l)).
Proof.
  intros Hm.
  pose proof (mean_of_key_encode (pollutant_key_map color_by) l) as H.
  unfold extract_color_val, encode_samples.
  destruct l as [|s l]; [destruct m; reflexivity|].
  change (truthy (PList (map encode_sample (s :: l)))) with true.
  cbv beta iota delta [negb try_except iter bind] .
  destruct (arithmetic_mean _) as [mm|].
  - destruct H as [q [Hq Hm']].
    destruct m; [congruence| |]; rewrite Hq; exists q; split; auto.
  - destruct m; [congruence| |]; rewrite H; reflexivity.
Qed.

(** ** Aggregation *)

(** C1, evaluated on the code.  In Forecast mode [extract_color_val] averages
    the requested pollutant over every sample it is given: for 30 hourly
    samples with pm2_5 values 1..30 it returns 15.5, not the mean 12.5 of the
    first 24.  Its Forecast branch is the Historic branch on every input,
    whereas the tooltip of the same payload averages [aq_data[:24]] and
    shows 12.5. *)
Theorem forecast_color_val_averages_whole_sequence :
  (exists q, extract_color_val Forecast "pm25" thirty_hours = Ok (PNum q)
             /\ (q == 31 # 2)%Q /\ ~ (q == 25 # 2)%Q)
  /\ (forall color_by aq_data,
        extract_color_val Forecast color_by aq_data
        = extract_color_val Historic color_by aq_data)
  /\ (exists q, mean_of_key "pm2_5"
                  (slice_to 24 (map encode_sample (hourly_pm25 30 1)))
                = Ok (Some q) /\ (q == 25 # 2)%Q).
Proof.
  split; [|split].
  - eexists. split; [vm_compute; reflexivity|].
    split; [reflexivity|]. intros H. vm_compute in H. discriminate.
  - intros color_by aq_data. reflexivity.
  - eexists. split; [vm_compute; reflexivity|reflexivity].
Qed.

(** C4.  In Historic mode the scalar is the arithmetic mean of the requested
    pollutant over all samples that contain the key; it is absent exactly
    when no sample contains the key; a sample without the key is left out of
    the mean: [{pm2_5:5},{no2:8}] with pm2_5 gives 5. *)
Theorem historic_scalar_is_mean_of_present
    (color_by : string) (samples : list PollutantSample) :
  let k := pollutant_key_map color_by in
  let r := extract_color_val Historic color_by (encode_samples samples) in
  returns_scalar r (arithmetic_mean (present_values k samples))
  /\ (r = Ok PNone <->
      Forall (fun s => component k (components s) = None) samples)
  /\ returns_scalar
       (extract_color_val Historic "pm25"
          (encode_samples [sample_pm25 5; sample_no2 8]))
       (Some 5%Q).
Proof.
  intros k r.
  assert (Hr : returns_scalar r (arithmetic_mean (present_values k samples))).
  { apply aggregate_list. discriminate. }
  split; [exact Hr|]. split.
  - rewrite <- present_values_nil. fold k.
    destruct (present_values k samples) as [|v vs]; simpl in Hr.
    + split; auto.
    + destruct Hr as [q [Hq _]]. rewrite Hq.
      split; discriminate.
  - exists 5%Q. split; [reflexivity|reflexivity].
Qed.

(** C5.  In Current mode the scalar is the sample's [components] value under
    the requested pollutant key when the key is present and absent otherwise;
    in every mode an absent query result gives an absent scalar. *)
Theorem current_scalar_is_component (color_by : string) (s : PollutantSample) :
  extract_color_val Current color_by (encode_sample s)
  = Ok (opt_num (component (pollutant_key_map color_by) (components s)))
  /\ forall m : mode, extract_color_val m color_by (encode_result QAbsent) = Ok PNone.
Proof.
  split.
  - unfold extract_color_val. rewrite truthy_encode_sample.
    cbn [negb]. rewrite getitem_components.
    unfold encode_components. cbn [bind get]. rewrite lookup_encode.
    destruct (component _ _); reflexivity.
  - intros m. reflexivity.
Qed.

(** C10 fails as stated: in Current mode a payload whose component is text
    makes [extract_color_val] return that text, which is neither a number nor
    [None]. *)
Lemma text_component_is_returned :
  extract_color_val Current "pm25" text_payload = Ok (PStr "high")
  /\ ~ (exists r, extract_color_val Current "pm25" text_payload = Ok r
                  /\ (r = PNone \/ exists q, r = PNum q)).
Proof.
  split; [reflexivity|].
  intros [r [Hr [H|[q H]]]]; subst r; vm_compute in Hr; discriminate.
Qed.

(** C10, amended.  [extract_color_val] never raises, whatever the payload.
    In Forecast and Historic mode it returns a number or [None]; in Current
    mode it returns [None] or the value stored under the pollutant key of the
    [components] dict, whatever its type. *)
Theorem extract_color_val_never_raises
    (m : mode) (color_by : string) (aq_data : pyval) :
  exists r, extract_color_val m color_by aq_data = Ok r /\
    match m with
    | Current =>
        r = PNone \/
        exists c, getitem aq_data "components" = Ok (PDict c)
                  /\ lookup (pollutant_key_map color_by) c = Some r
    | Forecast | Historic => r = PNone \/ exists q, r = PNum q
    end.
Proof.
  unfold extract_color_val.
  destruct (truthy aq_data); cbn [negb].
  2:{ exists PNone. split; [reflexivity|]. destruct m; left; reflexivity. }
  destruct m.
  - destruct (getitem aq_data "components") as [c|e]; cbn [bind try_except].
    2:{ exists PNone. split; [reflexivity|left; reflexivity]. }
    destruct c; cbn [get try_except];
      try (exists PNone; split; [reflexivity|left; reflexivity]).
    destruct (lookup (pollutant_key_map color_by) d) as [x|] eqn:E.
    + exists x. split; [reflexivity|]. right. exists d. split; [reflexivity|exact E].
    + exists PNone. split; [reflexivity|left; reflexivity].
  - destruct (iter aq_data) as [entries|e]; cbn [bind try_except].
    2:{ exists PNone. split; [reflexivity|left; reflexivity]. }
    destruct (mean_of_key _ entries) as [[q|]|e]; cbn [bind try_except opt_num].
    + exists (PNum q). split; [reflexivity|right; exists q; reflexivity].
    + exists PNone. split; [reflexivity|left; reflexivity].
    + exists PNone. split; [reflexivity|left; reflexivity].
  - destruct (iter aq_data) as [entries|e]; cbn [bind try_except].
    2:{ exists PNone. split; [reflexivity|left; reflexivity]. }
    destruct (mean_of_key _ entries) as [[q|]|e]; cbn [bind try_except opt_num].
    + exists (PNum q). split; [reflexivity|right; exists q; reflexivity].
    + exists PNone. split; [reflexivity|left; reflexivity].
    + exists PNone. split; [reflexivity|left; reflexivity].
Qed.

(** ** The data client *)

(** C3 fails as stated: when [requests.get] raises, each fetch operation
    lets the exception through instead of returning [None]. *)
Lemma transport_failure_propagates :
  fetch_current_aqi offline (41881 # 1000) (-87629 # 1000) = Raise RequestException
  /\ fetch_forecast_aqi offline (41881 # 1000) (-87629 # 1000) = Raise RequestException
  /\ fetch_historic_aqi offline (41881 # 1000) (-87629 # 1000) 0 86400
     = Raise RequestException
  /\ fetch_current_aqi offline (41881 # 1000) (-87629 # 1000) <> Ok PNone.
Proof.
  repeat split; try reflexivity. discriminate.
Qed.

Example fetch_not_found (m : mode) :
  fetch not_found m 0 86400 (41881 # 1000) (-87629 # 1000) = Ok PNone.
Proof. destruct m; reflexivity. Qed.

Example fetch_no_results (m : mode) :
  fetch no_results m 0 86400 (41881 # 1000) (-87629 # 1000) = Ok PNone.
Proof. destruct m; reflexivity. Qed.

(** C3, amended.  Each fetch operation returns [None] on a response whose
    status is not 200 and on a 200 response whose body has no ["list"] or an
    empty one; a failure of the transport itself propagates as the exception
    [requests.get] raised. *)
Theorem fetch_absent_on_bad_status_or_empty
    (requests_get : request -> http_result) (display_mode : mode)
    (start_unix end_unix : Z) (lat lon : Q) :
  let r := fetch requests_get display_mode start_unix end_unix lat lon in
  match requests_get (request_for display_mode start_unix end_unix lat lon) with
  | ConnectionFailed => r = Raise RequestException
  | Response status_code body =>
      if (status_code =? 200)%Z then
        match body with
        | Some (PDict d) =>
            match lookup "list" d with
            | None | Some (PList []) => r = Ok PNone
            | Some _ => True
            end
        | _ => True
        end
      else r = Ok PNone
  end.
Proof.
  destruct display_mode; cbn [fetch request_for];
    unfold fetch_current_aqi, fetch_forecast_aqi, fetch_historic_aqi;
    match goal with |- context [requests_get ?q] => destruct (requests_get q) as [|st body] end;
    try reflexivity;
    destruct (st =? 200)%Z; try reflexivity;
    destruct body as [[| | | | |d]|]; try exact I;
    cbn [json bind has_results contains];
    destruct (lookup "list" d) as [[| | | |[|x l]|]|] eqn:E; try exact I;
    cbn [bind getitem]; rewrite ?E; reflexivity.
Qed.

(** ** The colour domain *)

Lemma nums_of_present (vals : list (option Q)) :
  nums_of (dropna (map opt_num vals)) = Ok (present vals).
Proof.
  unfold dropna.
  induction vals as [|[q|] vals IH]; simpl; [reflexivity| |exact IH].
  rewrite IH. reflexivity.
Qed.

Lemma qmin_cases (a b : Q) :
  (qmin a b = a \/ qmin a b = b) /\ (qmin a b <= a)%Q /\ (qmin a b <= b)%Q.
Proof.
  unfold qmin. destruct (Qle_bool a b) eqn:E.
  - apply Qle_bool_iff in E. repeat split; auto. apply Qle_refl.
  - assert (H : ~ (a <= b)%Q) by (rewrite <- Qle_bool_iff; congruence).
    apply Qnot_le_lt, Qlt_le_weak in H.
    repeat split; auto. apply Qle_refl.
Qed.

Lemma qmax_cases (a b : Q) :
  (qmax a b = a \/ qmax a b = b) /\ (a <= qmax a b)%Q /\ (b <= qmax a b)%Q.
Proof.
  unfold qmax. destruct (Qle_bool a b) eqn:E.
  - apply Qle_bool_iff in E. repeat split; auto. apply Qle_refl.
  - assert (H : ~ (a <= b)%Q) by (rewrite <- Qle_bool_iff; congruence).
    apply Qnot_le_lt, Qlt_le_weak in H.
    repeat split; auto. apply Qle_refl.
Qed.

Lemma series_min_spec (xs : list Q) (x : Q) :
  In (series_min x xs) (x :: xs)
  /\ Forall (fun v => (series_min x xs <= v)%Q) (x :: xs).
Proof.
  unfold series_min. revert x.
  induction xs as [|y xs IH]; intros x; cbn [fold_left].
  - split; [left; reflexivity|]. constructor; [apply Qle_refl|constructor].
  - destruct (IH (qmin x y)) as [Hin Hall].
    destruct (qmin_cases x y) as [Hc [Hx Hy]].
    inversion Hall as [|? ? Hm Hrest]; subst.
    split.
    + destruct Hin as [Hin|Hin].
      * rewrite <- Hin. destruct Hc as [Hc|Hc]; rewrite Hc; simpl; auto.
      * right; right; exact Hin.
    + constructor; [eapply Qle_trans; eauto|].
      constructor; [eapply Qle_trans; eauto|exact Hrest].
Qed.

Lemma series_max_spec (xs : list Q) (x : Q) :
  In (series_max x xs) (x :: xs)
  /\ Forall (fun v => (v <= series_max x xs)%Q) (x :: xs).
Proof.
  unfold series_max. revert x.
  induction xs as [|y xs IH]; intros x; cbn [fold_left].
  - split; [left; reflexivity|]. constructor; [apply Qle_refl|constructor].
  - destruct (IH (qmax x y)) as [Hin Hall].
    destruct (qmax_cases x y) as [Hc [Hx Hy]].
    inversion Hall as [|? ? Hm Hrest]; subst.
    split.
    + destruct Hin as [Hin|Hin].
      * rewrite <- Hin. destruct Hc as [Hc|Hc]; rewrite Hc; simpl; auto.
      * right; right; exact Hin.
    + constructor; [eapply Qle_trans; eauto|].
      constructor; [eapply Qle_trans; eauto|exact Hrest].
Qed.

Lemma color_domain_present (vals : list (option Q)) :
  color_domain (map opt_num vals)
  = match present vals with
    | [] => Ok (0, 1)%Q
    | x :: xs => Ok (series_min x xs, series_max x xs)
    end.
Proof.
  unfold color_domain. rewrite nums_of_present. cbn [bind].
  destruct (present vals); reflexivity.
Qed.

(** C6.  The colour domain is taken over the present values of the column:
    with at least one present value it is [min, max] of the present values,
    with none it is [0, 1]. *)
Theorem color_domain_is_min_max_of_present (vals : list (option Q)) :
  match present vals with
  | [] => color_domain (map opt_num vals) = Ok (0, 1)%Q
  | _ :: _ =>
      exists lo hi,
        color_domain (map opt_num vals) = Ok (lo, hi)
        /\ In lo (present vals) /\ In hi (present vals)
        /\ Forall (fun v => (lo <= v)%Q /\ (v <= hi)%Q) (present vals)
  end.
Proof.
  rewrite color_domain_present.
  destruct (present vals) as [|x xs]; [reflexivity|].
  destruct (series_min_spec xs x) as [Hlo Hlo'].
  destruct (series_max_spec xs x) as [Hhi Hhi'].
  exists (series_min x xs), (series_max x xs).
  repeat split; auto.
  rewrite Forall_forall in *. intros v Hv. split; auto.
Qed.

(** ** The colour scale *)



(** C2.  When every present value of the column is the same number the
    domain has min = max, and the colour mapping then returns the mid anchor
    for any value without dividing by zero; a single region with value 20
    gives the domain [20, 20] and the mid anchor for 20.  The mapping is the
    one of section 4.4. *)
Theorem degenerate_domain_maps_to_mid_anchor
    (vals : list (option Q)) (v x : Q) :
  present vals <> [] ->
  Forall (fun u => (u == v)%Q) (present vals) ->
  (exists lo hi,
     color_domain (map opt_num vals) = Ok (lo, hi)
     /\ (lo == hi)%Q
     /\ colormap lo hi x = Ok mid_anchor
     /\ fill_color colormap lo hi (PNum x) = Ok mid_anchor)
  /\ color_domain [PNum 20] = Ok (20, 20)%Q
  /\ fill_color colormap 20 20 (PNum 20) = Ok mid_anchor.
Proof.
  intros Hne Hall. split; [|split; reflexivity].
  rewrite color_domain_present.
  destruct (present vals) as [|u us]; [congruence|].
  destruct (series_min_spec us u) as [Hlo _].
  destruct (series_max_spec us u) as [Hhi _].
  rewrite Forall_forall in Hall.
  assert (Hlh : (series_min u us == series_max u us)%Q).
  { rewrite (Hall _ Hlo), (Hall _ Hhi). reflexivity. }
  exists (series_min u us), (series_max u us).
  split; [reflexivity|]. split; [exact Hlh|].
  assert (Hc : colormap (series_min u us) (series_max u us) x = Ok mid_anchor).
  { unfold colormap. apply Qeq_bool_iff in Hlh. rewrite Hlh. reflexivity. }
  split; [exact Hc|]. unfold fill_color. cbn [is_none negb num_of bind]. exact Hc.
Qed.

Lemma degenerate_domain_single_region :
  (present [Some 20%Q] <> [] /\ Forall (fun u => (u == 20)%Q) (present [Some 20%Q]))
  /\ ((exists lo hi,
         color_domain (map opt_num [Some 20%Q]) = Ok (lo, hi)
         /\ (lo == hi)%Q
         /\ colormap lo hi 20 = Ok mid_anchor
         /\ fill_color colormap lo hi (PNum 20) = Ok mid_anchor)
      /\ color_domain [PNum 20] = Ok (20, 20)%Q
      /\ fill_color colormap 20 20 (PNum 20) = Ok mid_anchor).
Proof.
  assert (H1 : present [Some 20%Q] <> []) by (simpl; discriminate).
  assert (H2 : Forall (fun u => (u == 20)%Q) (present [Some 20%Q])).
  { simpl. constructor; [reflexivity|constructor]. }
  split; [split; [exact H1|exact H2]|].
  exact (degenerate_domain_maps_to_mid_anchor [Some 20%Q] 20 20 H1 H2).
Defined.

(** ** Strings *)

Lemma append_assoc (a b c : string) : (a ++ b) ++ c = a ++ (b ++ c).
Proof.
  induction a as [|x a IH]; simpl; [reflexivity|]. rewrite IH. reflexivity.
Qed.

Lemma prefix_nil (h : string) : prefix "" h = true.
Proof. destruct h; reflexivity. Qed.


Lemma prefix_append_l (h n b : string) :
  prefix n h = true -> prefix n (h ++ b) = true.
Proof.
  revert n. induction h as [|x h IH]; intros n H.
  - destruct n; [apply prefix_nil|discriminate].
  - destruct n as [|y n]; [reflexivity|]. simpl in *.
    destruct (ascii_dec y x); [apply IH; exact H|discriminate].
Qed.

Lemma contains_prefix (n h : string) :
  prefix n h = true -> contains_str n h = true.
Proof.
  intros H. destruct h; cbn [contains_str]; rewrite H; reflexivity.
Qed.

Lemma contains_append_l (n h b : string) :
  contains_str n h = true -> contains_str n (h ++ b) = true.
Proof.
  induction h as [|x h IH]; intros H.
  - cbn [contains_str] in H. rewrite orb_false_r in H.
    apply contains_prefix. apply (prefix_append_l "" n b H).
  - cbn [contains_str] in H. apply orb_true_iff in H.
    change (String x h ++ b) with (String x (h ++ b)).
    cbn [contains_str]. apply orb_true_iff. destruct H as [H|H].
    + left. apply (prefix_append_l (String x h) n b H).
    + right. apply IH. exact H.
Qed.

Lemma contains_append_r (n a h : string) :
  contains_str n h = true -> contains_str n (a ++ h) = true.
Proof.
  intros H. induction a as [|x a IH]; [exact H|].
  change (String x a ++ h) with (String x (a ++ h)).
  cbn [contains_str]. rewrite IH. apply orb_true_r.
Qed.

(** ** The render loop *)

Lemma mean_of_key_total (k : string) (l : list PollutantSample) :
  exists o, mean_of_key k (map encode_sample l) = Ok o
            /\ (present_values k l = [] -> o = None).
Proof.
  pose proof (mean_of_key_encode k l) as H.
  destruct (present_values k l) as [|v vs]; cbn [arithmetic_mean] in H.
  - exists None. split; [exact H|reflexivity].
  - destruct H as [q [Hq _]]. exists (Some q). split; [exact Hq|discriminate].
Qed.



Section RenderFacts.

Variable repr : pyval -> string.
Variable cm : Q -> Q -> Q -> exc color.
Variable sel : list string.

Hypothesis cm_total : forall a b x, raises (cm a b x) = false.







End RenderFacts.


(** Two readings and one failed fetch in Current mode: the domain is
    [10, 30], the ends of the scale colour A and B, and C is gray. *)
Example three_regions_rendered :
  color_domain
    (map (fun nq => color_val_of Current "pm25" (encode_result (snd nq))) three_regions)
  = Ok (10, 30)%Q
  /\ exists layers,
       render_loop plain_repr colormap Current ["pm25"; "o3"] 10 30
         (map (frame_row Current "pm25") three_regions) = Ok layers
       /\ map fillColor layers = [first_anchor; last_anchor; Named "gray"]
       /\ map tooltip layers
          = ["<b>A</b><br>AQI (Overall): ?<br>PM25: ?<br>O3: N/A<br>";
             "<b>B</b><br>AQI (Overall): ?<br>PM25: ?<br>O3: N/A<br>";
             "<b>C</b><br>No data available.<br>"].
Proof.
  split; [reflexivity|].
  eexists. split; [vm_compute; reflexivity|]. split; reflexivity.
Qed.



(** ** The spatial index *)

Lemma haversine_self (p : Q * Q) : haversine p p = 0%R.
Proof.
  unfold haversine, hav. cbv zeta.
  replace ((radians (fst p) - radians (fst p)) / 2)%R with 0%R by Lra.lra.
  replace ((radians (snd p) - radians (snd p)) / 2)%R with 0%R by Lra.lra.
  rewrite sin_0, Rsqr_0, Rmult_0_r, Rplus_0_r, sqrt_0, asin_0.
  Lra.lra.
Qed.

(** The scan keeps a region of least distance among those seen. *)
Lemma nearest_from_least (coord : Q * Q) (rest : list neighborhood)
    (best : neighborhood) :
  In (nearest_from coord best rest) (best :: rest)
  /\ Forall (fun r' =>
       (haversine coord (queryPoint (nearest_from coord best rest))
        <= haversine coord (queryPoint r'))%R) (best :: rest).
Proof.
  revert best. induction rest as [|r rest IH]; intros best; cbn [nearest_from].
  - split; [left; reflexivity|]. constructor; [apply Rle_refl|constructor].
  - destruct (Rlt_dec _ _) as [Hlt|Hge].
    + destruct (IH r) as [Hin Hall]. split; [right; exact Hin|].
      inversion Hall as [|? ? Hr Hrest]; subst.
      constructor; [Lra.lra|]. constructor; assumption.
    + destruct (IH best) as [Hin Hall]. split.
      * destruct Hin as [Hin|Hin]; [left; exact Hin|right; right; exact Hin].
      * inversion Hall as [|? ? Hb Hrest]; subst.
        constructor; [exact Hb|]. constructor; [Lra.lra|exact Hrest].
Qed.

(** A region at distance zero from the coordinate wins the scan when every
    other region is farther away. *)
Lemma nearest_from_self (coord : Q * Q) (R0 : neighborhood)
    (rest : list neighborhood) (best : neighborhood) :
  haversine coord (queryPoint R0) = 0%R ->
  In R0 (best :: rest) ->
  (forall R', In R' (best :: rest) ->
     R' = R0 \/ (0 < haversine coord (queryPoint R'))%R) ->
  nearest_from coord best rest = R0.
Proof.
  intros H0. revert best.
  induction rest as [|r rest IH]; intros best Hin Hfar; cbn [nearest_from].
  - destruct Hin as [Hin|[]]. exact Hin.
  - assert (Hb := Hfar best (or_introl eq_refl)).
    assert (Hr := Hfar r (or_intror (or_introl eq_refl))).
    destruct (Rlt_dec _ _) as [Hlt|Hge].
    + apply IH.
      * destruct Hin as [Hin|[Hin|Hin]].
        -- subst best. rewrite H0 in Hlt.
           destruct Hr as [Hr|Hr]; [left; exact Hr|Lra.lra].
        -- left; exact Hin.
        -- right; exact Hin.
      * intros R' HR'. apply Hfar. right. exact HR'.
    + apply IH.
      * destruct Hin as [Hin|[Hin|Hin]].
        -- left; exact Hin.
        -- subst r. rewrite H0 in Hge.
           destruct Hb as [Hb|Hb]; [left; exact Hb|Lra.lra].
        -- right; exact Hin.
      * intros R' [HR'|HR']; apply Hfar; [left; exact HR'|right; right; exact HR'].
Qed.

Lemma radians_0 : radians 0 = 0%R.
Proof. unfold radians, Q2R. simpl. Lra.lra. Qed.

Lemma radians_180 : radians 180 = PI.
Proof. unfold radians, Q2R. simpl. Lra.lra. Qed.

Lemma haversine_half_turn :
  haversine (queryPoint west_nb) (queryPoint east_nb) = PI.
Proof.
  unfold haversine, hav, queryPoint, get_nearest_station_coord, west_nb, east_nb.
  cbn [centroid px py fst snd].
  rewrite radians_0, radians_180.
  replace ((0 - 0) / 2)%R with 0%R by Lra.lra.
  replace ((PI - 0) / 2)%R with (PI / 2)%R by Lra.lra.
  rewrite sin_0, cos_0, sin_PI2, Rsqr_0, Rsqr_1.
  replace (0 + 1 * 1 * 1)%R with 1%R by Lra.lra.
  rewrite sqrt_1, asin_1. Lra.lra.
Qed.

(** ** The script on failing fetches *)

Section ScriptFacts.

Variable repr : pyval -> string.
Variable cm : Q -> Q -> Q -> exc color.
Variable m : mode.
Variable sel : list string.
Variable color_by : string.
Variables su eu : Z.

Lemma fetch_loop_not_found (nbs : list neighborhood) :
  fetch_loop not_found m su eu nbs = Ok (map (fun _ => PNone) nbs).
Proof.
  induction nbs as [|nb nbs IH]; [reflexivity|].
  cbn [fetch_loop map]. rewrite IH. destruct m; reflexivity.
Qed.

Lemma apply_extract_none (nbs : list neighborhood) :
  apply_extract m color_by (map (fun _ => PNone) nbs)
  = Ok (map (fun _ => PNone) nbs).
Proof.
  induction nbs as [|nb nbs IH]; [reflexivity|].
  cbn [apply_extract map]. rewrite IH. reflexivity.
Qed.

Lemma color_domain_none (nbs : list neighborhood) :
  color_domain (map (fun _ => PNone) nbs) = Ok (0, 1)%Q.
Proof.
  unfold color_domain, dropna.
  induction nbs as [|nb nbs IH]; [reflexivity|exact IH].
Qed.

Lemma render_loop_none (lo hi : Q) (nbs : list neighborhood) :
  exists layers,
    render_loop repr cm m sel lo hi
      (make_rows nbs (map (fun _ => PNone) nbs) (map (fun _ => PNone) nbs))
    = Ok layers
    /\ List.length layers = List.length nbs
    /\ Forall (fun l => fillColor l = Named "gray"
                        /\ contains_str "No data available." (tooltip l) = true)
         layers.
Proof.
  induction nbs as [|nb nbs IH].
  - exists []. repeat split; constructor.
  - destruct IH as [ls [H1 [H2 H3]]].
    unfold make_rows in *. cbn [map combine render_loop fst snd].
    unfold render_row at 1. cbn [row_region aq_data color_val].
    unfold fill_color, tooltip_html. cbn [is_none negb truthy bind].
    rewrite H1. cbn [bind].
    eexists. split; [reflexivity|]. split; [cbn [List.length]; congruence|].
    constructor; [|exact H3]. cbn [fillColor tooltip].
    split; [reflexivity|]. apply contains_append_r. reflexivity.
Qed.

Lemma script_not_found (nb : neighborhood) (nbs : list neighborhood) :
  exists layers,
    script not_found repr cm (list (Q * Q)) build_index m sel color_by su eu
      (nb :: nbs) = Ok layers
    /\ List.length layers = List.length (nb :: nbs)
    /\ Forall (fun l => fillColor l = Named "gray"
                        /\ contains_str "No data available." (tooltip l) = true)
         layers.
Proof.
  unfold script. cbv zeta. cbn [map build_index bind].
  rewrite (fetch_loop_not_found (nb :: nbs)). cbn [bind].
  rewrite (apply_extract_none (nb :: nbs)). cbn [bind].
  rewrite (color_domain_none (nb :: nbs)). cbn [bind fst snd].
  apply render_loop_none.
Qed.

End ScriptFacts.

(** One fetch that raises ends the whole script: no layer is drawn. *)
Example script_offline :
  script offline plain_repr colormap (list (Q * Q)) build_index Forecast
    ["pm25"] "pm25" 0 86400 (map fst three_regions)
  = Raise RequestException.
Proof. reflexivity. Qed.

(** C8.  Over an empty region set the index lookup and the whole script fail
    with a [ConfigurationError]; over a non-empty one the lookup always
    returns a region of least haversine distance, and regions without data
    do not raise: the script then returns one gray "No data available."
    layer per region.  The index is the one of section 4.1. *)
Theorem empty_region_set_is_configuration_error
    (requests_get : request -> http_result) (repr : pyval -> string)
    (cm : Q -> Q -> Q -> exc color) (m : mode) (sel : list string)
    (color_by : string) (su eu : Z)
    (regions : list neighborhood) (coord : Q * Q) :
  match regions with
  | [] =>
      nearestRegion regions coord = Raise ConfigurationError
      /\ script requests_get repr cm (list (Q * Q)) build_index m sel color_by
           su eu regions = Raise ConfigurationError
  | _ :: _ =>
      (exists r,
         In r regions
         /\ nearestRegion regions coord = Ok (name r)
         /\ Forall (fun r' =>
              (haversine coord (queryPoint r)
               <= haversine coord (queryPoint r'))%R) regions)
      /\ (exists layers,
            script not_found repr cm (list (Q * Q)) build_index m sel color_by
              su eu regions = Ok layers
            /\ List.length layers = List.length regions
            /\ Forall (fun l =>
                 fillColor l = Named "gray"
                 /\ contains_str "No data available." (tooltip l) = true) layers)
  end.
Proof.
  destruct regions as [|r0 rest].
  - split; reflexivity.
  - split.
    + destruct (nearest_from_least coord rest r0) as [Hin Hall].
      exists (nearest_from coord r0 rest).
      split; [exact Hin|]. split; [reflexivity|exact Hall].
    + apply script_not_found.
Qed.

(** C9 fails as stated: two regions with distinct ids and one shared query
    point cannot both be the answer for that point, with this lookup or with
    any other. *)
Lemma shared_query_point_breaks_self_lookup :
  ~ (forall R0 : neighborhood,
       In R0 [twin_a; twin_b] ->
       nearestRegion [twin_a; twin_b] (queryPoint R0) = Ok (name R0))
  /\ forall lookup_region : Q * Q -> exc string,
       ~ (forall R0 : neighborhood,
            In R0 [twin_a; twin_b] ->
            lookup_region (queryPoint R0) = Ok (name R0)).
Proof.
  assert (H : forall lookup_region : Q * Q -> exc string,
             ~ (forall R0 : neighborhood,
                  In R0 [twin_a; twin_b] ->
                  lookup_region (queryPoint R0) = Ok (name R0))).
  { intros f Hf.
    pose proof (Hf twin_a (or_introl eq_refl)) as Ha.
    pose proof (Hf twin_b (or_intror (or_introl eq_refl))) as Hb.
    change (queryPoint twin_b) with (queryPoint twin_a) in Hb.
    rewrite Ha in Hb. discriminate Hb. }
  split; [|exact H].
  exact (H (nearestRegion [twin_a; twin_b])).
Qed.

(** C9, amended.  For a region whose query point lies at positive haversine
    distance from the query point of every other region of the set, looking
    up its own query point returns its own id; and the resolver maps a region
    to the coordinates of its own centroid. *)
Theorem nearest_region_of_own_query_point
    (regions : list neighborhood) (R0 : neighborhood) :
  In R0 regions ->
  (forall R', In R' regions ->
     R' = R0 \/ (0 < haversine (queryPoint R0) (queryPoint R'))%R) ->
  nearestRegion regions (queryPoint R0) = Ok (name R0)
  /\ get_nearest_station_coord (centroid R0) = (py (centroid R0), px (centroid R0)).
Proof.
  intros Hin Hfar. split; [|reflexivity].
  unfold nearestRegion.
  destruct regions as [|r rest]; [destruct Hin|].
  cbn [build_index bind]. f_equal. f_equal.
  apply nearest_from_self; auto using haversine_self.
Qed.

Lemma nearest_region_of_own_query_point_half_turn :
  nearestRegion [west_nb; east_nb] (queryPoint west_nb) = Ok (name west_nb)
  /\ get_nearest_station_coord (centroid west_nb)
     = (py (centroid west_nb), px (centroid west_nb)).
Proof.
  apply (nearest_region_of_own_query_point [west_nb; east_nb] west_nb).
  - left. reflexivity.
  - intros R' [H|[H|[]]]; subst R'.
    + left. reflexivity.
    + right. rewrite haversine_half_turn. exact PI_RGT_0.
Defined.

(** * Further properties of the script *)

(** ** Pollutant names *)

Lemma lower_ascii_idem (c : ascii) : lower_ascii (lower_ascii c) = lower_ascii c.
Proof.
  destruct c as [[] [] [] [] [] [] [] []]; reflexivity.
Qed.

Lemma lower_upper_ascii (c : ascii) : lower_ascii (upper_ascii c) = lower_ascii c.
Proof.
  destruct c as [[] [] [] [] [] [] [] []]; reflexivity.
Qed.

Lemma lower_idem (s : string) : lower (lower s) = lower s.
Proof.
  induction s as [|c s IH]; simpl; [reflexivity|].
  rewrite lower_ascii_idem, IH. reflexivity.
Qed.

Lemma lower_upper (s : string) : lower (upper s) = lower s.
Proof.
  induction s as [|c s IH]; simpl; [reflexivity|].
  rewrite lower_upper_ascii, IH. reflexivity.
Qed.

(** The keys the table can produce map to themselves. *)
Lemma mapping_values_fixed (q k : string) :
  lookup_str q mapping = Some k ->
  pollutant_key_map k = k /\ lower k = k.
Proof.
  unfold mapping. cbn [lookup_str].
  repeat (destruct (String.eqb q _);
          [intros H; injection H as <-; split; reflexivity|]).
  discriminate.
Qed.

(** [pollutant_key_map] ignores the case of the pollutant name, returns a
    lower-case key, and maps its own results to themselves. *)
Theorem pollutant_key_map_normalises (p : string) :
  pollutant_key_map (upper p) = pollutant_key_map p
  /\ pollutant_key_map (lower p) = pollutant_key_map p
  /\ lower (pollutant_key_map p) = pollutant_key_map p
  /\ pollutant_key_map (pollutant_key_map p) = pollutant_key_map p.
Proof.
  assert (Hu : pollutant_key_map (upper p) = pollutant_key_map p).
  { unfold pollutant_key_map. rewrite lower_upper. reflexivity. }
  assert (Hl : pollutant_key_map (lower p) = pollutant_key_map p).
  { unfold pollutant_key_map. rewrite lower_idem. reflexivity. }
  split; [exact Hu|]. split; [exact Hl|].
  destruct (lookup_str (lower p) mapping) as [k|] eqn:E.
  - assert (Hp : pollutant_key_map p = k).
    { unfold pollutant_key_map. rewrite E. reflexivity. }
    rewrite Hp. destruct (mapping_values_fixed _ _ E) as [H1 H2].
    split; assumption.
  - assert (Hp : pollutant_key_map p = lower p).
    { unfold pollutant_key_map. rewrite E. reflexivity. }
    rewrite Hp. split; [apply lower_idem|].
    rewrite Hl. exact Hp.
Qed.

(** ** What a fetch returns *)

Lemma has_results_truthy (data l : pyval) :
  has_results data = Ok true ->
  getitem data "list" = Ok l ->
  truthy l = true.
Proof.
  unfold has_results. intros H Hl.
  destruct (contains "list" data) as [[|]|e]; cbn [bind] in H; try discriminate.
  rewrite Hl in H. cbn [bind] in H.
  destruct l as [| | |s|l|d]; cbn [len bind] in H; try discriminate;
    injection H as H; apply Nat.ltb_lt in H.
  - destruct s; [simpl in H; lia|reflexivity].
  - destruct l; [simpl in H; lia|reflexivity].
  - destruct d; [simpl in H; lia|reflexivity].
Qed.

(** In Forecast and Historic mode a fetch that returns gives [None] or a
    non-empty value: it never hands an empty list to the rest of the
    script. *)
Theorem fetch_list_is_none_or_nonempty
    (requests_get : request -> http_result) (m : mode)
    (su eu : Z) (lat lon : Q) (v : pyval) :
  m <> Current ->
  fetch requests_get m su eu lat lon = Ok v ->
  v = PNone \/ truthy v = true.
Proof.
  intros Hm H.
  assert (G : forall o : http_result,
            match o with
            | ConnectionFailed => Raise RequestException
            | Response status_code body =>
                if (status_code =? 200)%Z then
                  data <- json body ;;
                  b <- has_results data ;;
                  if b then getitem data "list" else Ok PNone
                else Ok PNone
            end = Ok v -> v = PNone \/ truthy v = true).
  { intros [|st body]; [discriminate|].
    destruct (st =? 200)%Z; [|intros E; injection E as <-; left; reflexivity].
    destruct body as [data|]; cbn [json bind]; [|discriminate].
    destruct (has_results data) as [[|]|e] eqn:Eh; cbn [bind]; try discriminate.
    - intros E. right. exact (has_results_truthy data v Eh E).
    - intros E; injection E as <-; left; reflexivity. }
  destruct m; [congruence| |]; cbn [fetch] in H;
    unfold fetch_forecast_aqi, fetch_historic_aqi in H; exact (G _ H).
Qed.

Lemma fetch_list_is_none_or_nonempty_served :
  PList [encode_sample (sample_pm25 10)] = PNone
  \/ truthy (PList [encode_sample (sample_pm25 10)]) = true.
Proof.
  apply (fetch_list_is_none_or_nonempty (served [encode_sample (sample_pm25 10)])
           Forecast 0 86400 (41881 # 1000) (-87629 # 1000)
           (PList [encode_sample (sample_pm25 10)])).
  - discriminate.
  - reflexivity.
Defined.

(** On a 200 response whose ["list"] is a non-empty list, Current mode
    returns the first entry and the other modes return the whole list. *)
Theorem fetch_returns_entries
    (requests_get : request -> http_result) (m : mode)
    (su eu : Z) (lat lon : Q) (d : list (string * pyval))
    (x : pyval) (l : list pyval) :
  requests_get (request_for m su eu lat lon) = Response 200 (Some (PDict d)) ->
  lookup "list" d = Some (PList (x :: l)) ->
  fetch requests_get m su eu lat lon
  = Ok (match m with
        | Current => x
        | Forecast | Historic => PList (x :: l)
        end).
Proof.
  intros Hr Hl.
  destruct m; cbn [fetch request_for] in *;
    unfold fetch_current_aqi, fetch_forecast_aqi, fetch_historic_aqi;
    rewrite Hr; cbn [Z.eqb Pos.eqb json bind has_results contains];
    rewrite Hl; cbn [bind getitem]; rewrite Hl; reflexivity.
Qed.

Lemma fetch_returns_entries_served :
  fetch (served [encode_sample (sample_pm25 10); encode_sample (sample_pm25 30)])
    Forecast 0 86400 (41881 # 1000) (-87629 # 1000)
  = Ok (PList [encode_sample (sample_pm25 10); encode_sample (sample_pm25 30)]).
Proof.
  apply (fetch_returns_entries
           (served [encode_sample (sample_pm25 10); encode_sample (sample_pm25 30)])
           Forecast 0 86400 (41881 # 1000) (-87629 # 1000)
           [("list", PList [encode_sample (sample_pm25 10);
                            encode_sample (sample_pm25 30)])]).
  - reflexivity.
  - reflexivity.
Defined.

(** ** The mean of a list of readings *)











(** ** Entries that hold no reading, and entries that cannot be read *)

Lemma collect_vals_app (k : string) (a b : list pyval) :
  collect_vals k (a ++ b)%list
  = (vs1 <- collect_vals k a ;;
     vs2 <- collect_vals k b ;;
     Ok (vs1 ++ vs2)%list).
Proof.
  induction a as [|e a IH]; cbn [app collect_vals bind].
  - destruct (collect_vals k b); reflexivity.
  - destruct (getitem e "components") as [c|err]; cbn [bind]; [|reflexivity].
    destruct (contains k c) as [[|]|err]; cbn [bind]; [|exact IH|reflexivity].
    destruct (get c k PNone) as [v|err]; cbn [bind]; [|reflexivity].
    rewrite IH.
    destruct (collect_vals k a) as [vs1|err]; cbn [bind]; [|reflexivity].
    destruct (collect_vals k b) as [vs2|err]; reflexivity.
Qed.




(** On a list payload the colour value is the mean of the entries, with any
    exception turned into [None]; the empty list needs no special case. *)
Lemma extract_list (m : mode) (color_by : string) (entries : list pyval) :
  m <> Current ->
  extract_color_val m color_by (PList entries)
  = try_except
      (o <- mean_of_key (pollutant_key_map color_by) entries ;; Ok (opt_num o))
      (fun _ => Ok PNone).
Proof.
  intros Hm. unfold extract_color_val.
  destruct entries as [|e entries]; [reflexivity|].
  cbn [truthy negb iter bind].
  destruct m; [congruence| |]; reflexivity.
Qed.



Lemma collect_vals_unreadable (k : string) (pre post : list pyval) (e : pyval) :
  raises (getitem e "components") = true ->
  raises (collect_vals k (pre ++ e :: post)%list) = true.
Proof.
  intros He. rewrite collect_vals_app.
  destruct (collect_vals k pre) as [vs|err]; cbn [bind]; [|reflexivity].
  cbn [collect_vals].
  destruct (getitem e "components"); [discriminate He|reflexivity].
Qed.

Lemma avg_lines_raises (repr : pyval -> string) (m : mode) (p : string)
    (ps : list string) (entries : list pyval) (t : string) :
  raises (mean_of_key (pollutant_key_map p) entries) = true ->
  raises (avg_lines repr m (p :: ps) entries t) = true.
Proof.
  intros H. cbn [avg_lines].
  destruct (mean_of_key _ entries); [discriminate H|reflexivity].
Qed.

(** A list entry whose [components] cannot be read (the field is missing, or
    the entry is not a dict) turns the colour value of a Forecast or Historic
    payload into [None]; the Historic tooltip of the same payload is not
    guarded and raises as soon as one pollutant is selected. *)
Theorem unreadable_entry_voids_payload
    (repr : pyval -> string) (m : mode) (color_by p nm : string)
    (ps : list string) (pre post : list pyval) (e : pyval) :
  m <> Current ->
  raises (getitem e "components") = true ->
  extract_color_val m color_by (PList (pre ++ e :: post)) = Ok PNone
  /\ raises (tooltip_html repr Historic (p :: ps) nm (PList (pre ++ e :: post)))
     = true.
Proof.
  intros Hm He. split.
  - rewrite extract_list by exact Hm. unfold mean_of_key.
    pose proof (collect_vals_unreadable (pollutant_key_map color_by) pre post e He) as H.
    destruct (collect_vals _ _); [discriminate H|reflexivity].
  - unfold tooltip_html.
    assert (Ht : truthy (PList (pre ++ e :: post)) = true).
    { destruct pre; reflexivity. }
    rewrite Ht. apply avg_lines_raises. unfold mean_of_key.
    pose proof (collect_vals_unreadable (pollutant_key_map p) pre post e He) as H.
    destruct (collect_vals _ _); [discriminate H|reflexivity].
Qed.

Lemma unreadable_entry_voids_payload_text :
  extract_color_val Forecast "pm25"
    (PList ([encode_sample (sample_pm25 10)] ++ PStr "n/a" :: [])) = Ok PNone
  /\ raises (tooltip_html plain_repr Historic ("pm25" :: []) "Loop"
               (PList ([encode_sample (sample_pm25 10)] ++ PStr "n/a" :: [])))
     = true.
Proof.
  apply (unreadable_entry_voids_payload plain_repr Forecast "pm25" "pm25" "Loop"
           [] [encode_sample (sample_pm25 10)] [] (PStr "n/a")).
  - discriminate.
  - reflexivity.
Defined.

(** ** The exceptions a tooltip can raise *)

Lemma getitem_error (v : pyval) (k : string) (e : exn) :
  getitem v k = Raise e -> data_error e = true.
Proof.
  destruct v as [| | | | |d]; cbn [getitem]; try (intros H; injection H as <-; reflexivity).
  destruct (lookup k d); [discriminate|].
  intros H; injection H as <-; reflexivity.
Qed.

Lemma contains_error (k : string) (v : pyval) (e : exn) :
  contains k v = Raise e -> data_error e = true.
Proof.
  destruct v; cbn [contains]; try discriminate;
    intros H; injection H as <-; reflexivity.
Qed.








(** ** The text of a tooltip *)

Lemma append_nil_r (s : string) : s ++ "" = s.
Proof.
  induction s as [|c s IH]; simpl; [reflexivity|]. rewrite IH. reflexivity.
Qed.

Lemma current_lines_exact (repr : pyval -> string) (s : PollutantSample)
    (ps : list string) (t : string) :
  current_lines repr ps (encode_sample s) t
  = Ok (t ++ lines (map (current_line repr s) ps)).
Proof.
  revert t. induction ps as [|p ps IH]; intros t.
  - cbn [current_lines map lines fold_right]. rewrite append_nil_r. reflexivity.
  - cbn [current_lines]. rewrite getitem_components.
    unfold encode_components. cbn [bind get]. rewrite lookup_encode.
    cbn [map lines fold_right]. fold (lines (map (current_line repr s) ps)).
    unfold current_line at 1.
    destruct (component (pollutant_key_map p) (components s)) as [v|];
      cbn [option_map bind]; rewrite IH, append_assoc; reflexivity.
Qed.

Lemma avg_lines_exact (repr : pyval -> string) (m : mode)
    (l : list PollutantSample) (ps : list string) (t : string) :
  avg_lines repr m ps (map encode_sample l) t
  = Ok (t ++ lines (map (fun p =>
                      upper p ++ " (" ++ mode_name m ++ " avg): "
                        ++ avg_text repr (shown_mean (pollutant_key_map p) l)
                        ++ "<br>") ps)).
Proof.
  revert t. induction ps as [|p ps IH]; intros t.
  - cbn [avg_lines map lines fold_right]. rewrite append_nil_r. reflexivity.
  - cbn [avg_lines map lines fold_right].
    destruct (mean_of_key_total (pollutant_key_map p) l) as [o [Ho _]].
    unfold shown_mean at 1. rewrite Ho. cbn [bind].
    rewrite IH, append_assoc. reflexivity.
Qed.


(** In Current mode the tooltip of a well-formed sample is the bold name,
    the overall index, and one line per selected pollutant in the order
    selected, with "N/A" for a pollutant the sample does not report. *)
Theorem current_tooltip_text
    (repr : pyval -> string) (sel : list string) (nm : string)
    (s : PollutantSample) (i : Z) :
  overallIndex s = Some i ->
  tooltip_html repr Current sel nm (encode_sample s)
  = Ok (("<b>" ++ nm ++ "</b><br>")
        ++ ("AQI (Overall): " ++ repr (PNum (inject_Z i)) ++ "<br>")
        ++ lines (map (current_line repr s) sel)).
Proof.
  intros Hi. unfold tooltip_html.
  rewrite truthy_encode_sample, (getitem_main s i Hi).
  cbn [getitem lookup String.eqb Ascii.eqb Bool.eqb bind].
  rewrite current_lines_exact, append_assoc. reflexivity.
Qed.

Lemma current_tooltip_text_sample :
  tooltip_html plain_repr Current ["pm25"; "o3"] "Loop" (encode_sample (sample_pm25 10))
  = Ok (("<b>" ++ "Loop" ++ "</b><br>")
        ++ ("AQI (Overall): " ++ plain_repr (PNum (inject_Z 1)) ++ "<br>")
        ++ lines (map (current_line plain_repr (sample_pm25 10)) ["pm25"; "o3"])).
Proof.
  apply (current_tooltip_text plain_repr ["pm25"; "o3"] "Loop" (sample_pm25 10) 1).
  reflexivity.
Defined.

(** In Forecast and Historic mode the tooltip of well-formed samples is the
    bold name and one line per selected pollutant in the order selected,
    each with the mean over the mode's window or "N/A"; an empty list reads
    "No data available." *)
Theorem average_tooltip_text
    (repr : pyval -> string) (m : mode) (sel : list string) (nm : string)
    (samples : list PollutantSample) :
  match m with
  | Current => True
  | Forecast | Historic =>
      tooltip_html repr m sel nm (encode_samples samples)
      = Ok (("<b>" ++ nm ++ "</b><br>")
            ++ match samples with
               | [] => "No data available.<br>"
               | _ :: _ => lines (map (avg_line repr m samples) sel)
               end)
  end.
Proof.
  destruct m; [exact I| |]; unfold tooltip_html, encode_samples;
    (destruct samples as [|s l]; [reflexivity|]);
    change (truthy (PList (map encode_sample (s :: l)))) with true; cbv iota.
  - unfold slice_to. rewrite firstn_map, avg_lines_exact. reflexivity.
  - rewrite avg_lines_exact. reflexivity.
Qed.






(** In Forecast mode the tooltip reads only the first 24 entries: whatever
    follows them, well formed or not, does not change it. *)
Theorem forecast_tooltip_reads_24_entries
    (repr : pyval -> string) (sel : list string) (nm : string)
    (l extra : list pyval) :
  (24 <= List.length l)%nat ->
  tooltip_html repr Forecast sel nm (PList (l ++ extra))
  = tooltip_html repr Forecast sel nm (PList l).
Proof.
  intros Hlen. unfold tooltip_html.
  assert (H1 : truthy (PList l) = true).
  { destruct l; [simpl in Hlen; lia|reflexivity]. }
  assert (H2 : truthy (PList (l ++ extra)) = true).
  { destruct l; [simpl in Hlen; lia|reflexivity]. }
  rewrite H1, H2. unfold slice_to.
  rewrite firstn_app.
  replace (24 - List.length l)%nat with 0%nat by lia.
  cbn [firstn]. rewrite app_nil_r. reflexivity.
Qed.

Lemma forecast_tooltip_reads_24_entries_thirty :
  tooltip_html plain_repr Forecast ["pm25"] "Loop"
    (PList (map encode_sample (hourly_pm25 24 1) ++ [PStr "n/a"; PNone]))
  = tooltip_html plain_repr Forecast ["pm25"] "Loop"
      (PList (map encode_sample (hourly_pm25 24 1))).
Proof.
  apply (forecast_tooltip_reads_24_entries plain_repr ["pm25"] "Loop"
           (map encode_sample (hourly_pm25 24 1)) [PStr "n/a"; PNone]).
  apply Nat.leb_le. reflexivity.
Defined.

(** ** Payloads without data *)







(** ** The colour domain and the order of the regions *)

Lemma present_perm (vals vals' : list (option Q)) :
  Permutation vals vals' -> Permutation (present vals) (present vals').
Proof.
  induction 1 as [|o l l' _ IH|o o' l|l l' l'' _ IH1 _ IH2]; cbn [present].
  - constructor.
  - destruct o; [constructor|]; exact IH.
  - destruct o, o'; try apply Permutation_refl. apply perm_swap.
  - eapply Permutation_trans; eassumption.
Qed.

Lemma series_min_perm (x x' : Q) (xs xs' : list Q) :
  Permutation (x :: xs) (x' :: xs') ->
  (series_min x xs <= series_min x' xs')%Q.
Proof.
  intros Hp.
  destruct (series_min_spec xs x) as [_ Hlo].
  destruct (series_min_spec xs' x') as [Hin _].
  rewrite Forall_forall in Hlo. apply Hlo.
  apply (Permutation_in _ (Permutation_sym Hp)). exact Hin.
Qed.

Lemma series_max_perm (x x' : Q) (xs xs' : list Q) :
  Permutation (x :: xs) (x' :: xs') ->
  (series_max x xs <= series_max x' xs')%Q.
Proof.
  intros Hp.
  destruct (series_max_spec xs x) as [Hin _].
  destruct (series_max_spec xs' x') as [_ Hhi].
  rewrite Forall_forall in Hhi. apply Hhi.
  apply (Permutation_in _ Hp). exact Hin.
Qed.

(** On a column of numbers and [None]s the colour domain is always computed,
    its lower end is at most its upper end, and it does not depend on the
    order of the rows. *)
Theorem color_domain_ignores_row_order (vals vals' : list (option Q)) :
  Permutation vals vals' ->
  exists lo hi lo' hi',
    color_domain (map opt_num vals) = Ok (lo, hi)
    /\ color_domain (map opt_num vals') = Ok (lo', hi')
    /\ (lo <= hi)%Q /\ (lo == lo')%Q /\ (hi == hi')%Q.
Proof.
  intros Hp. rewrite !color_domain_present.
  pose proof (present_perm _ _ Hp) as Hpp.
  destruct (present vals) as [|x xs]; destruct (present vals') as [|x' xs'].
  - exists 0%Q, 1%Q, 0%Q, 1%Q. repeat split; try reflexivity. discriminate.
  - apply Permutation_length in Hpp. discriminate Hpp.
  - apply Permutation_length in Hpp. discriminate Hpp.
  - exists (series_min x xs), (series_max x xs),
      (series_min x' xs'), (series_max x' xs').
    split; [reflexivity|]. split; [reflexivity|].
    destruct (series_min_spec xs x) as [_ Hlo].
    destruct (series_max_spec xs x) as [_ Hhi].
    inversion Hlo; subst. inversion Hhi; subst.
    split; [eapply Qle_trans; eassumption|].
    split; apply Qle_antisym;
      auto using series_min_perm, series_max_perm, Permutation_sym.
Qed.

Lemma color_domain_ignores_row_order_three :
  exists lo hi lo' hi',
    color_domain (map opt_num [Some 30%Q; None; Some 10%Q]) = Ok (lo, hi)
    /\ color_domain (map opt_num [Some 10%Q; None; Some 30%Q]) = Ok (lo', hi')
    /\ (lo <= hi)%Q /\ (lo == lo')%Q /\ (hi == hi')%Q.
Proof.
  apply (color_domain_ignores_row_order
           [Some 30%Q; None; Some 10%Q] [Some 10%Q; None; Some 30%Q]).
  apply (Permutation_rev [Some 30%Q; None; Some 10%Q]).
Defined.

(** ** The whole script *)

Lemma extract_color_val_returns (m : mode) (color_by : string) (v : pyval) :
  extract_color_val m color_by v = Ok (color_val_of m color_by v).
Proof.
  unfold color_val_of.
  assert (H : raises (extract_color_val m color_by v) = false).
  { unfold extract_color_val. destruct (negb (truthy v)); [reflexivity|].
    destruct m;
      match goal with |- raises (try_except ?b _) = false => destruct b end;
      reflexivity. }
  destruct (extract_color_val m color_by v); [reflexivity|discriminate H].
Qed.



Section ScriptRuns.

Variable requests_get : request -> http_result.
Variable repr : pyval -> string.
Variable cm : Q -> Q -> Q -> exc color.
Variable Tree : Type.
Variable BallTree : list (Q * Q) -> exc Tree.
Variable m : mode.
Variable sel : list string.
Variable color_by : string.
Variables su eu : Z.






Lemma fetch_loop_fails (nb : neighborhood) (nbs : list neighborhood) :
  In nb nbs ->
  raises (fetch requests_get m su eu (py (centroid nb)) (px (centroid nb))) = true ->
  raises (fetch_loop requests_get m su eu nbs) = true.
Proof.
  intros Hin Hf. induction nbs as [|nb' nbs IH]; [destruct Hin|].
  cbn [fetch_loop].
  destruct Hin as [->|Hin].
  - destruct (fetch _ _ _ _ _ _); [discriminate Hf|reflexivity].
  - destruct (fetch requests_get m su eu (py (centroid nb')) (px (centroid nb')));
      [|reflexivity].
    cbn [bind]. specialize (IH Hin).
    destruct (fetch_loop _ _ _ _ nbs); [discriminate IH|reflexivity].
Qed.

End ScriptRuns.



(** A fetch that raises for one neighbourhood, for instance on a failed
    connection, ends the script with an exception: no layer is drawn for any
    neighbourhood. *)
Theorem one_raising_fetch_aborts_script
    (requests_get : request -> http_result) (repr : pyval -> string)
    (cm : Q -> Q -> Q -> exc color) (Tree : Type)
    (BallTree : list (Q * Q) -> exc Tree)
    (m : mode) (sel : list string) (color_by : string) (su eu : Z)
    (nbs : list neighborhood) (nb : neighborhood) :
  In nb nbs ->
  requests_get (request_for m su eu (py (centroid nb)) (px (centroid nb)))
  = ConnectionFailed ->
  raises (script requests_get repr cm Tree BallTree m sel color_by su eu nbs) = true.
Proof.
  intros Hin Hreq. unfold script. cbv zeta.
  destruct (BallTree _); [|reflexivity]. cbn [bind].
  assert (Hf : raises (fetch requests_get m su eu (py (centroid nb)) (px (centroid nb)))
               = true).
  { destruct m; cbn [fetch request_for] in *;
      unfold fetch_current_aqi, fetch_forecast_aqi, fetch_historic_aqi;
      rewrite Hreq; reflexivity. }
  pose proof (fetch_loop_fails requests_get m su eu nb nbs Hin Hf) as H.
  destruct (fetch_loop _ _ _ _ nbs); [discriminate H|reflexivity].
Qed.

Lemma one_raising_fetch_aborts_script_east :
  raises (script (fun r => if Qeq_bool (req_lon r) 180 then ConnectionFailed
                           else served [encode_sample (sample_pm25 10)] r)
            plain_repr colormap (list (Q * Q)) build_index Current ["pm25"]
            "pm25" 0 86400 [west_nb; east_nb]) = true.
Proof.
  apply (one_raising_fetch_aborts_script
           (fun r => if Qeq_bool (req_lon r) 180 then ConnectionFailed
                     else served [encode_sample (sample_pm25 10)] r)
           plain_repr colormap (list (Q * Q)) build_index Current ["pm25"]
           "pm25" 0 86400 [west_nb; east_nb] east_nb).
  - right. left. reflexivity.
  - reflexivity.
Defined.

(** ** The render loop on a payload it cannot read *)

Lemma render_row_raises (repr : pyval -> string) (cm : Q -> Q -> Q -> exc color)
    (m : mode) (sel : list string) (lo hi : Q) (r : row) :
  raises (tooltip_html repr m sel (name (row_region r)) (aq_data r)) = true ->
  raises (render_row repr cm m sel lo hi r) = true.
Proof.
  intros H. unfold render_row.
  destruct (fill_color cm lo hi (color_val r)); [|reflexivity]. cbn [bind].
  destruct (tooltip_html _ _ _ _ _); [discriminate H|reflexivity].
Qed.

Lemma render_loop_raises (repr : pyval -> string) (cm : Q -> Q -> Q -> exc color)
    (m : mode) (sel : list string) (lo hi : Q) (rows : list row) (r : row) :
  In r rows ->
  raises (render_row repr cm m sel lo hi r) = true ->
  raises (render_loop repr cm m sel lo hi rows) = true.
Proof.
  intros Hin Hr. induction rows as [|r' rows IH]; [destruct Hin|].
  cbn [render_loop]. destruct Hin as [->|Hin].
  - destruct (render_row _ _ _ _ _ _ r); [discriminate Hr|reflexivity].
  - destruct (render_row _ _ _ _ _ _ r'); [|reflexivity]. cbn [bind].
    specialize (IH Hin).
    destruct (render_loop _ _ _ _ _ _ rows); [discriminate IH|reflexivity].
Qed.

(** In Current mode a non-empty payload without a ["main"] entry is read
    without an exception by [extract_color_val], but the tooltip code is not
    guarded: the render loop raises and draws no layer at all, for this
    region or any other. *)
Theorem current_payload_without_main_aborts_render
    (repr : pyval -> string) (cm : Q -> Q -> Q -> exc color)
    (sel : list string) (color_by : string) (lo hi : Q)
    (rows : list row) (r : row) (d : list (string * pyval)) :
  In r rows ->
  aq_data r = PDict d ->
  d <> [] ->
  lookup "main" d = None ->
  raises (extract_color_val Current color_by (aq_data r)) = false
  /\ raises (render_loop repr cm Current sel lo hi rows) = true.
Proof.
  intros Hin Hd Hne Hmain. split.
  - rewrite extract_color_val_returns. reflexivity.
  - apply (render_loop_raises repr cm Current sel lo hi rows r Hin).
    apply render_row_raises. rewrite Hd. unfold tooltip_html.
    destruct d as [|kv d]; [congruence|].
    cbn [truthy getitem]. rewrite Hmain. reflexivity.
Qed.

Lemma current_payload_without_main_aborts_render_two_rows :
  raises (extract_color_val Current "pm25"
            (aq_data (mkRow east_nb text_payload (PStr "high")))) = false
  /\ raises (render_loop plain_repr colormap Current ["pm25"] 10 30
               [frame_row Current "pm25" (west_nb, QCurrent (sample_pm25 10));
                mkRow east_nb text_payload (PStr "high")]) = true.
Proof.
  apply (current_payload_without_main_aborts_render plain_repr colormap ["pm25"]
           "pm25" 10 30
           [frame_row Current "pm25" (west_nb, QCurrent (sample_pm25 10));
            mkRow east_nb text_payload (PStr "high")]
           (mkRow east_nb text_payload (PStr "high"))
           [("components", PDict [("pm2_5", PStr "high")])]).
  - right. left. reflexivity.
  - reflexivity.
  - discriminate.
  - reflexivity.
Defined.

(** ** Neighbourhood names *)

Ltac each_ascii c := destruct c as [[] [] [] [] [] [] [] []].

Lemma title_char_idem (b : bool) (c : ascii) :
  title_char b (fst (title_char b c)) = title_char b c.
Proof. each_ascii c; destruct b; reflexivity. Qed.

Lemma title_char_upper (b : bool) (c : ascii) :
  title_char b (upper_ascii c) = title_char b c.
Proof. each_ascii c; destruct b; reflexivity. Qed.

Lemma title_char_lower (b : bool) (c : ascii) :
  title_char b (lower_ascii c) = title_char b c.
Proof. each_ascii c; destruct b; reflexivity. Qed.

Lemma title_char_space (b : bool) (c : ascii) :
  is_space (fst (title_char b c)) = is_space c.
Proof. each_ascii c; destruct b; reflexivity. Qed.

Lemma space_not_cased (b : bool) (c : ascii) :
  is_space c = true -> snd (title_char b c) = false.
Proof. each_ascii c; destruct b; intros H; try reflexivity; discriminate H. Qed.

Lemma upper_space (c : ascii) : is_space (upper_ascii c) = is_space c.
Proof. each_ascii c; reflexivity. Qed.

Lemma lower_space (c : ascii) : is_space (lower_ascii c) = is_space c.
Proof. each_ascii c; reflexivity. Qed.

Lemma title_from_idem (s : string) (b : bool) :
  title_from b (title_from b s) = title_from b s.
Proof.
  revert b. induction s as [|c s IH]; intros b; cbn [title_from]; [reflexivity|].
  rewrite title_char_idem, IH. reflexivity.
Qed.

Lemma title_from_upper (s : string) (b : bool) :
  title_from b (upper s) = title_from b s.
Proof.
  revert b. induction s as [|c s IH]; intros b; cbn [upper title_from]; [reflexivity|].
  rewrite title_char_upper, IH. reflexivity.
Qed.

Lemma title_from_lower (s : string) (b : bool) :
  title_from b (lower s) = title_from b s.
Proof.
  revert b. induction s as [|c s IH]; intros b; cbn [lower title_from]; [reflexivity|].
  rewrite title_char_lower, IH. reflexivity.
Qed.

Lemma lstrip_title (s : string) : lstrip (title s) = title (lstrip s).
Proof.
  unfold title. induction s as [|c s IH]; [reflexivity|].
  cbn [title_from lstrip]. rewrite title_char_space.
  destruct (is_space c) eqn:E; [|reflexivity].
  rewrite (space_not_cased false c E). exact IH.
Qed.

Lemma rstrip_title_from (s : string) (b : bool) :
  rstrip (title_from b s) = title_from b (rstrip s).
Proof.
  revert b. induction s as [|c s IH]; intros b; [reflexivity|].
  cbn [title_from rstrip]. rewrite IH, title_char_space.
  destruct (rstrip s) as [|c' r]; cbn [title_from].
  - destruct (is_space c); reflexivity.
  - reflexivity.
Qed.

Lemma lstrip_upper (s : string) : lstrip (upper s) = upper (lstrip s).
Proof.
  induction s as [|c s IH]; [reflexivity|].
  cbn [upper lstrip]. rewrite upper_space.
  destruct (is_space c); [exact IH|reflexivity].
Qed.

Lemma rstrip_upper (s : string) : rstrip (upper s) = upper (rstrip s).
Proof.
  induction s as [|c s IH]; [reflexivity|].
  cbn [upper rstrip]. rewrite IH, upper_space.
  destruct (rstrip s); cbn [upper]; [destruct (is_space c)|]; reflexivity.
Qed.

Lemma lstrip_lower (s : string) : lstrip (lower s) = lower (lstrip s).
Proof.
  induction s as [|c s IH]; [reflexivity|].
  cbn [lower lstrip]. rewrite lower_space.
  destruct (is_space c); [exact IH|reflexivity].
Qed.

Lemma rstrip_lower (s : string) : rstrip (lower s) = lower (rstrip s).
Proof.
  induction s as [|c s IH]; [reflexivity|].
  cbn [lower rstrip]. rewrite IH, lower_space.
  destruct (rstrip s); cbn [lower]; [destruct (is_space c)|]; reflexivity.
Qed.

Lemma lstrip_idem (s : string) : lstrip (lstrip s) = lstrip s.
Proof.
  induction s as [|c s IH]; [reflexivity|].
  cbn [lstrip]. destruct (is_space c) eqn:E; [exact IH|].
  cbn [lstrip]. rewrite E. reflexivity.
Qed.

Lemma rstrip_idem (s : string) : rstrip (rstrip s) = rstrip s.
Proof.
  induction s as [|c s IH]; [reflexivity|].
  cbn [rstrip]. destruct (rstrip s) as [|c' r] eqn:E.
  - destruct (is_space c) eqn:Ec; [reflexivity|].
    cbn [rstrip]. rewrite Ec. reflexivity.
  - cbn [rstrip]. cbn [rstrip] in IH. rewrite IH. reflexivity.
Qed.

(** Stripping the right end leaves a stripped left end stripped. *)
Lemma lstrip_rstrip_lstrip (s : string) :
  lstrip (rstrip (lstrip s)) = rstrip (lstrip s).
Proof.
  induction s as [|c s IH]; [reflexivity|].
  cbn [lstrip]. destruct (is_space c) eqn:E; [exact IH|].
  cbn [rstrip]. destruct (rstrip s); rewrite ?E; cbn [lstrip]; rewrite E; reflexivity.
Qed.

Lemma strip_idem (s : string) : strip (strip s) = strip s.
Proof.
  unfold strip. rewrite lstrip_rstrip_lstrip. apply rstrip_idem.
Qed.

Lemma strip_title (s : string) : strip (title s) = title (strip s).
Proof.
  unfold strip. rewrite lstrip_title. unfold title. apply rstrip_title_from.
Qed.

Lemma rstrip_blank (s : string) : rstrip (s ++ " ") = rstrip s.
Proof.
  induction s as [|c s IH]; [reflexivity|].
  change (String c s ++ " ") with (String c (s ++ " ")).
  cbn [rstrip]. rewrite IH. reflexivity.
Qed.

Lemma strip_blanks (s : string) : strip (" " ++ s ++ " ") = strip s.
Proof.
  unfold strip. change (" " ++ s ++ " ") with (String " " (s ++ " ")).
  cbn [lstrip]. change (is_space " ") with true. cbv iota.
  induction s as [|c s IH]; [reflexivity|].
  change (String c s ++ " ") with (String c (s ++ " ")).
  cbn [lstrip]. destruct (is_space c); [exact IH|].
  apply (rstrip_blank (String c s)).
Qed.

(** The name a neighbourhood is loaded under is stable: normalising it again
    changes nothing, and names that differ only in letter case or in blanks
    around them are loaded under the same name. *)
Theorem normalise_name_stable (s : string) :
  normalise_name (normalise_name s) = normalise_name s
  /\ normalise_name (upper s) = normalise_name s
  /\ normalise_name (lower s) = normalise_name s
  /\ normalise_name (" " ++ s ++ " ") = normalise_name s.
Proof.
  unfold normalise_name. repeat split.
  - rewrite strip_title, strip_idem. unfold title. apply title_from_idem.
  - unfold strip. rewrite lstrip_upper, rstrip_upper.
    unfold title. apply title_from_upper.
  - unfold strip. rewrite lstrip_lower, rstrip_lower.
    unfold title. apply title_from_lower.
  - rewrite strip_blanks. reflexivity.
Qed.

Example normalise_name_examples :
  normalise_name "  hyde PARK " = "Hyde Park"
  /\ normalise_name "o'hare" = "O'Hare"
  /\ normalise_name "near north side" = "Near North Side".
Proof. repeat split; reflexivity. Qed.

(** ** The first entry of a Current response *)

Lemma getitem_idx_guarded (data l : pyval) :
  has_results data = Ok true ->
  getitem data "list" = Ok l ->
  getitem_idx l 0 <> Raise IndexError.
Proof.
  intros Hh Hl. pose proof (has_results_truthy data l Hh Hl) as Ht.
  destruct l as [| | |s|l|d]; cbn [getitem_idx]; try discriminate.
  - destruct s; [discriminate Ht|]. cbn [chars_of nth_error]. discriminate.
  - destruct l; [discriminate Ht|]. cbn [nth_error]. discriminate.
Qed.

(** [fetch_current_aqi] never raises an [IndexError], whatever the server
    answers: the entry [data["list"][0]] is read only after the length test
    has passed. *)
Theorem fetch_current_index_is_guarded
    (requests_get : request -> http_result) (lat lon : Q) :
  fetch_current_aqi requests_get lat lon <> Raise IndexError.
Proof.
  unfold fetch_current_aqi.
  destruct (requests_get _) as [|st body]; [discriminate|].
  destruct (st =? 200)%Z; [|discriminate].
  destruct body as [data|]; cbn [json bind]; [|discriminate].
  destruct (has_results data) as [[|]|e] eqn:Eh; cbn [bind]; try discriminate.
  - destruct (getitem data "list") as [l|e] eqn:El; cbn [bind].
    + exact (getitem_idx_guarded data l Eh El).
    + intros H. injection H as ->.
      pose proof (getitem_error _ _ _ El) as Hd. discriminate Hd.
  - unfold has_results in Eh.
    destruct (contains "list" data) as [[|]|e'] eqn:Ec; cbn [bind] in Eh.
    + destruct (getitem data "list") as [l|e'] eqn:El; cbn [bind] in Eh.
      * destruct (len l) as [n|e'] eqn:En; cbn [bind] in Eh; [discriminate Eh|].
        injection Eh as <-.
        destruct l; cbn [len] in En; try discriminate En;
          injection En as <-; discriminate.
      * injection Eh as <-. intros H. injection H as ->.
        pose proof (getitem_error _ _ _ El) as Hd. discriminate Hd.
    + discriminate Eh.
    + injection Eh as <-. intros H. injection H as ->.
      pose proof (contains_error _ _ _ Ec) as Hd. discriminate Hd.
Qed.
